(** * Draft board: a model of the fantasy-football draft backend

    The development embeds [backend/models.py] and [backend/main.py]:
    the two tables (players, teams), the ORM objects with their
    projections ([to_dict]) and budget accounting ([get_spent],
    [get_remaining_budget]), and the request handlers, each run as one
    unit of work against a session.

    Conventions.
    - A table is a finite map from primary key to row ([gmap Z _]); an
      ORM object is the pair of its key and its row.
    - A nullable column is an [option]; [Team.name] and [Team.budget]
      are only ever written from the request models [TeamCreate] and
      [TeamUpdate], whose fields are [str] and [int], so they are
      modelled as [string] and [Z].
    - Python [int] is [Z]; Python [float] is a binary64 [float].  The
      store takes integers of the signed 64-bit range only: a lookup by
      an id outside it, and a commit that has to write an integer
      outside it, raise [OverflowError].
    - A handler is a computation in the session monad [M]: it reads and
      writes the session's pending view of the store, may raise, and
      makes its writes visible with [commit].
    - The library functions an upload goes through, the builtin [float],
      [bytes.decode] and [csv.DictReader], are parameters of the
      development: what is proved holds whatever they compute. *)

From Stdlib Require Import ZArith Ascii String Floats.
From stdpp Require Import base option list strings gmap fin_maps pretty.

Local Open Scope Z_scope.
Local Open Scope string_scope.
Local Set Warnings "-register-all".

(** ** Rows (models.py) *)

(** [class Player]: every column but the primary key. *)
Record Player := mkPlayer {
  name : option string;
  position : option string;
  team : option string;
  projected_points : option float;
  drafted : bool;
  draft_price : option Z;
  drafted_by : option string;
  fantasy_team_id : option Z
}.

(** [class Team]: every column but the primary key. *)
Record Team := mkTeam {
  team_name : string;
  budget : Z
}.

(** Attribute assignment on a [Player] object. *)
Definition with_drafted (v : bool) (p : Player) : Player :=
  mkPlayer (name p) (position p) (team p) (projected_points p)
           v (draft_price p) (drafted_by p) (fantasy_team_id p).

Definition with_draft_price (v : option Z) (p : Player) : Player :=
  mkPlayer (name p) (position p) (team p) (projected_points p)
           (drafted p) v (drafted_by p) (fantasy_team_id p).

Definition with_drafted_by (v : option string) (p : Player) : Player :=
  mkPlayer (name p) (position p) (team p) (projected_points p)
           (drafted p) (draft_price p) v (fantasy_team_id p).

Definition with_fantasy_team_id (v : option Z) (p : Player) : Player :=
  mkPlayer (name p) (position p) (team p) (projected_points p)
           (drafted p) (draft_price p) (drafted_by p) v.

(** Attribute assignment on a [Team] object. *)
Definition with_team_name (v : string) (t : Team) : Team := mkTeam v (budget t).
Definition with_budget (v : Z) (t : Team) : Team := mkTeam (team_name t) v.

(** The two tables. *)
Record Store := mkStore {
  players : gmap Z Player;
  teams : gmap Z Team
}.

(** ** Python values, exceptions, results *)

(** What a handler returns: a JSON-shaped Python value.  A [dict] keeps
    its insertion order. *)
Inductive value :=
| VNone
| VBool (b : bool)
| VInt (z : Z)
| VFloat (f : float)
| VStr (s : string)
| VList (l : list value)
| VDict (d : list (string * value)).

Definition opt {A} (inj : A → value) (o : option A) : value :=
  match o with Some a => inj a | None => VNone end.

(** [d[k]] on a dict value. *)
Fixpoint assoc (k : string) (d : list (string * value)) : option value :=
  match d with
  | [] => None
  | (k', v) :: d' => if String.eqb k k' then Some v else assoc k d'
  end.

Definition item (k : string) (v : value) : option value :=
  match v with VDict d => assoc k d | _ => None end.

Inductive exn :=
| HTTPException (status_code : Z) (detail : string)
| ValueError
| TypeError
| MultipleResultsFound
| MissingGreenlet
| OverflowError
| UnicodeDecodeError
| csv_Error.

Inductive outcome (A : Type) :=
| Ok (a : A)
| Raise (e : exn).
Arguments Ok {A} a.
Arguments Raise {A} e.

Definition is_ok {A} (r : outcome A) : bool :=
  match r with Ok _ => true | Raise _ => false end.

(** ** Projections and budget accounting (models.py) *)

(** [Player.to_dict]. *)
Definition Player_to_dict (self : Z * Player) : value :=
  VDict [ ("id", VInt self.1);
          ("name", opt VStr (name self.2));
          ("position", opt VStr (position self.2));
          ("team", opt VStr (team self.2));
          ("projected_points", opt VFloat (projected_points self.2));
          ("drafted", VBool (drafted self.2));
          ("draft_price", opt VInt (draft_price self.2));
          ("drafted_by", opt VStr (drafted_by self.2));
          ("fantasy_team_id", opt VInt (fantasy_team_id self.2)) ].

(** [p.draft_price or 0]: [None] and [0] are both falsy. *)
Definition draft_price_or_0 (p : Z * Player) : Z :=
  match draft_price p.2 with
  | Some z => if decide (z = 0) then 0 else z
  | None => 0
  end.

(** [sum(p.draft_price or 0 for p in player_list)]: the builtin adds
    from the left, starting at 0. *)
Definition sum_draft_prices (player_list : list (Z * Player)) : Z :=
  foldl (λ acc p, acc + draft_price_or_0 p) 0 player_list.

(** A [Team] object: key, row, and the [players] relationship, which is
    [None] while it is not loaded (reading it then raises). *)
Record TeamObj := mkTeamObj {
  team_id : Z;
  team_row : Team;
  team_players : option (list (Z * Player))
}.

Definition self_players (self : TeamObj) : outcome (list (Z * Player)) :=
  match team_players self with
  | Some l => Ok l
  | None => Raise MissingGreenlet
  end.

(** [Team.get_spent(players=None)]. *)
Definition get_spent (self : TeamObj) (players : option (list (Z * Player)))
  : outcome Z :=
  match (match players with Some l => Ok l | None => self_players self end) with
  | Ok player_list => Ok (sum_draft_prices player_list)
  | Raise e => Raise e
  end.

(** [Team.get_remaining_budget(players=None)]. *)
Definition get_remaining_budget (self : TeamObj)
    (players : option (list (Z * Player))) : outcome Z :=
  match get_spent self players with
  | Ok spent => Ok (budget (team_row self) - spent)
  | Raise e => Raise e
  end.

(** [Team.to_dict(include_players=False)]: the [try] reads the
    relationship and sums; the [except] falls back to no players. *)
Definition Team_to_dict (self : TeamObj) (include_players : bool) : value :=
  let '(players_list, spent) :=
    match self_players self with
    | Ok players_list => (players_list, sum_draft_prices players_list)
    | Raise _ => ([], 0)
    end in
  let result :=
    [ ("id", VInt (team_id self));
      ("name", VStr (team_name (team_row self)));
      ("budget", VInt (budget (team_row self)));
      ("spent", VInt spent);
      ("remaining_budget", VInt (budget (team_row self) - spent)) ] in
  VDict (if include_players
         then result ++ [("players", VList (Player_to_dict <$> players_list))]
         else result).

(** ** The session (database.py, sqlalchemy) *)

(** A session opened on the committed store keeps its own pending view;
    [commit] publishes it.  A session that ends without [commit] leaves
    the committed store as it found it. *)
Record Session := mkSession {
  committed : Store;
  pending : Store
}.

Definition M (A : Type) : Type := Session → outcome A * Session.

#[global] Instance M_ret : MRet M := λ A a s, (Ok a, s).
#[global] Instance M_bind : MBind M := λ A B f m s,
  match m s with
  | (Ok a, s') => f a s'
  | (Raise e, s') => (Raise e, s')
  end.

Definition raise {A} (e : exn) : M A := λ s, (Raise e, s).

Definition get_pending : M Store := λ s, (Ok (pending s), s).

Definition put_pending (st : Store) : M () :=
  λ s, (Ok (), mkSession (committed s) st).

(** The range of an [Integer] column and of an integer statement
    parameter: signed 64 bits.  Binding an integer outside it raises
    [OverflowError]. *)
Definition int64 (z : Z) : bool :=
  ((- 2 ^ 63 <=? z) && (z <? 2 ^ 63))%Z.

(** The parameter an [UPDATE] binds for one nullable integer column:
    the new value, when the column changed and is not set to null. *)
Definition bound (old new : option Z) : list Z :=
  if decide (old = new) then [] else option_list new.

(** The integer parameters the flush binds for one row of the pending
    view: every integer column of a new row ([INSERT]), the changed
    integer columns of a row there was ([UPDATE]).  Keys are assigned
    by the store and are not counted. *)
Definition Player_params (old : option Player) (new : Player) : list Z :=
  match old with
  | None => option_list (draft_price new) ++ option_list (fantasy_team_id new)
  | Some o =>
      bound (draft_price o) (draft_price new)
      ++ bound (fantasy_team_id o) (fantasy_team_id new)
  end.

Definition Team_params (old : option Team) (new : Team) : list Z :=
  match old with
  | None => [budget new]
  | Some o => if decide (budget o = budget new) then [] else [budget new]
  end.

Definition flush_params (before after : Store) : list Z :=
  (map_to_list (players after)
     ≫= λ r, Player_params (players before !! r.1) r.2)
  ++ (map_to_list (teams after)
        ≫= λ r, Team_params (teams before !! r.1) r.2).

(** [await session.commit()]: the flush sends what the session changed;
    if a parameter is out of range it raises and nothing is published. *)
Definition commit : M () :=
  λ s, if forallb int64 (flush_params (committed s) (pending s))
       then (Ok (), mkSession (pending s) (pending s))
       else (Raise OverflowError, s).

(** [for x in l: body]. *)
Fixpoint for_ {A} (l : list A) (body : A → M ()) : M () :=
  match l with
  | [] => mret ()
  | x :: l' => body x ;; for_ l' body
  end.

(** [result.scalars().all()] for [select(Player)] and [select(Team)]. *)
Definition select_Player : M (list (Z * Player)) :=
  st ← get_pending; mret (map_to_list (players st)).

Definition select_Team : M (list (Z * Team)) :=
  st ← get_pending; mret (map_to_list (teams st)).

(** [result.scalar_one_or_none()]. *)
Definition scalar_one_or_none {A} (rows : list A) : M (option A) :=
  match rows with
  | [] => mret None
  | [x] => mret (Some x)
  | _ => raise MultipleResultsFound
  end.

(** [select(Player).where(Player.id == player_id)] and its [Team] twin:
    a condition on the primary key selects at most one row.  The id is
    a statement parameter: a table holds only keys the store assigned,
    all in range, so an id outside the range names no row, and binding
    it raises [OverflowError] where an id in range yields no row. *)
Definition Player_by_id (player_id : Z) : M (option (Z * Player)) :=
  st ← get_pending;
  match players st !! player_id with
  | Some p => mret (Some (player_id, p))
  | None => if int64 player_id then mret None else raise OverflowError
  end.

Definition Team_by_id (team_id : Z) : M (option (Z * Team)) :=
  st ← get_pending;
  match teams st !! team_id with
  | Some t => mret (Some (team_id, t))
  | None => if int64 team_id then mret None else raise OverflowError
  end.

(** The [Team.players] relationship: the players whose
    [fantasy_team_id] is the team's key. *)
Definition players_of (st : Store) (team_id : Z) : list (Z * Player) :=
  filter (λ p, fantasy_team_id p.2 = Some team_id) (map_to_list (players st)).

(** Loading a [Team] object; the relationship is declared
    [lazy="selectin"], so it comes loaded with the row. *)
Definition load_Team (st : Store) (t : Z * Team) : TeamObj :=
  mkTeamObj t.1 t.2 (Some (players_of st t.1)).

(** The key the store assigns to a new row: one more than the largest
    key in use, 1 in an empty table. *)
Definition next_id {A} (table : gmap Z A) : Z :=
  1 + foldr Z.max 0 (map_to_list table).*1.

(** [session.add(obj)] for a new object; the key is assigned here. *)
Definition add_Player (p : Player) : M Z :=
  st ← get_pending;
  let i := next_id (players st) in
  put_pending (mkStore (<[i := p]> (players st)) (teams st)) ;; mret i.

Definition add_Team (t : Team) : M Z :=
  st ← get_pending;
  let i := next_id (teams st) in
  put_pending (mkStore (players st) (<[i := t]> (teams st))) ;; mret i.

(** [obj.attr = v] on an object of the session: the object changes and
    its row is rewritten in the pending view. *)
Definition setattr_Player (obj : Z * Player) (f : Player → Player)
  : M (Z * Player) :=
  st ← get_pending;
  put_pending (mkStore (<[obj.1 := f obj.2]> (players st)) (teams st)) ;;
  mret (obj.1, f obj.2).

Definition setattr_Team (obj : Z * Team) (f : Team → Team) : M (Z * Team) :=
  st ← get_pending;
  put_pending (mkStore (players st) (<[obj.1 := f obj.2]> (teams st))) ;;
  mret (obj.1, f obj.2).

(** [await session.delete(obj)]. *)
Definition delete_Player (obj : Z * Player) : M () :=
  st ← get_pending;
  put_pending (mkStore (delete obj.1 (players st)) (teams st)).

Definition delete_Team (obj : Z * Team) : M () :=
  st ← get_pending;
  put_pending (mkStore (players st) (delete obj.1 (teams st))).

(** One request: the dependency [get_session] opens a session on the
    store, the handler runs in it, and the session is closed; what the
    handler did not commit is dropped. *)
Definition run_request {A} (handler : M A) (db : Store) : outcome A * Store :=
  let '(r, s) := handler (mkSession db db) in (r, committed s).

(** ** Request models (main.py) *)

(** [class TeamCreate(BaseModel)]; [budget] defaults to 200 when the
    body leaves it out. *)
Record TeamCreate := mkTeamCreate {
  tc_name : string;
  tc_budget : Z
}.

Definition TeamCreate_of (name : string) (budget : option Z) : TeamCreate :=
  mkTeamCreate name (default 200 budget).

(** [class TeamUpdate(BaseModel)]. *)
Record TeamUpdate := mkTeamUpdate {
  tu_name : option string;
  tu_budget : option Z
}.

(** ** Roster ingestion (main.py, upload_players) *)

(** A row of [csv.DictReader]: column name to cell.  A cell is [None]
    where the line is shorter than the header. *)
Abbreviation Row := (gmap string (option string)).

(** [row.get(k, default)]. *)
Definition get (row : Row) (k : string) (default : option string)
  : option string :=
  match row !! k with Some v => v | None => default end.

(** Truth value of a cell: [None] and the empty string are falsy. *)
Definition truthy (v : option string) : bool :=
  match v with
  | Some s => negb (String.eqb s "")
  | None => false
  end.

(** What iterating [csv.DictReader(io.StringIO(csv_text))] gives the
    loop: the rows the reader yields, one at a time, and then either
    the end of the file or a [csv.Error]. *)
Record Reader := mkReader {
  yields : list Row;
  ends_in_error : bool
}.

(** [s.endswith(suffix)]. *)
Definition endswith (s suffix : string) : bool :=
  let n := String.length s in
  let k := String.length suffix in
  (k <=? n)%nat && String.eqb (substring (n - k) k s) suffix.

Section Ingestion.

(** The builtin [float] on a string: [None] where Python raises
    [ValueError]. *)
Variable float_of_str : string → option float.

(** [contents.decode('utf-8')]: [None] where Python raises
    [UnicodeDecodeError]. *)
Variable decode_utf8 : list Byte.byte → option string.

(** [csv.DictReader(io.StringIO(csv_text))]. *)
Variable DictReader : string → Reader.

(** [float(x)] for [x] a cell: [float(None)] is a [TypeError]. *)
Definition float_ (x : option string) : outcome float :=
  match x with
  | None => Raise TypeError
  | Some s =>
      match float_of_str s with
      | Some f => Ok f
      | None => Raise ValueError
      end
  end.

(** [float(row.get('projected_points', row.get('Projected Points', 0)))
     if row.get('projected_points') or row.get('Projected Points')
     else None].
    The innermost default is the integer 0, and [float(0)] is 0.0. *)
Definition row_projected_points (row : Row) : outcome (option float) :=
  if truthy (get row "projected_points" None)
     || truthy (get row "Projected Points" None)
  then
    match
      (match row !! "projected_points" with
       | Some v => float_ v
       | None =>
           match row !! "Projected Points" with
           | Some v => float_ v
           | None => Ok 0%float
           end
       end)
    with
    | Ok f => Ok (Some f)
    | Raise e => Raise e
    end
  else Ok None.

(** [Player(name=..., position=..., team=..., projected_points=...)];
    the other columns take their defaults. *)
Definition Player_of_row (row : Row) : outcome Player :=
  let name := get row "name" (get row "Name" (Some "")) in
  let position := get row "position" (get row "Position" (Some "")) in
  let team := get row "team" (get row "Team" (Some "")) in
  match row_projected_points row with
  | Ok projected_points =>
      Ok (mkPlayer name position team projected_points false None None None)
  | Raise e => Raise e
  end.

(** The body of [for row in csv_reader], with the counter; the loop
    ends when the reader is exhausted or raises. *)
Fixpoint upload_rows (rows : list Row) (ends_in_error : bool)
    (players_added : Z) : M Z :=
  match rows with
  | [] => if ends_in_error then raise csv_Error else mret players_added
  | row :: rows' =>
      match Player_of_row row with
      | Ok player =>
          add_Player player ;;
          upload_rows rows' ends_in_error (players_added + 1)
      | Raise e => raise e
      end
  end.

(** [POST /api/players/upload]; [filename] is [file.filename] and
    [contents] is what [await file.read()] returns. *)
Definition upload_players (filename : string) (contents : list Byte.byte)
  : M value :=
  if negb (endswith filename ".csv")
  then raise (HTTPException 400 "Only CSV files are supported")
  else
    match decode_utf8 contents with
    | None => raise UnicodeDecodeError
    | Some csv_text =>
        let csv_reader := DictReader csv_text in
        players_added ←
          upload_rows (yields csv_reader) (ends_in_error csv_reader) 0;
        commit ;;
        mret (VDict [("message",
                      VStr ("Successfully uploaded " +:+ pretty players_added
                            +:+ " players"))])
    end.

End Ingestion.

(** ** Player handlers (main.py) *)

(** [GET /]. *)
Definition root : M value :=
  mret (VDict [("message", VStr "Fantasy Football Draft Board API")]).

(** [GET /api/players]. *)
Definition get_players : M value :=
  players ← select_Player;
  mret (VList (Player_to_dict <$> players)).

(** [PATCH /api/players/{player_id}/draft]. *)
Definition draft_player (player_id draft_price : Z) (drafted_by : string)
    (team_id : option Z) : M value :=
  player ← Player_by_id player_id;
  match player with
  | None => raise (HTTPException 404 "Player not found")
  | Some player =>
      player ← match team_id with
               | Some team_id =>
                   team ← Team_by_id team_id;
                   match team with
                   | None => raise (HTTPException 404 "Team not found")
                   | Some _ =>
                       setattr_Player player
                         (with_fantasy_team_id (Some team_id))
                   end
               | None => mret player
               end;
      player ← setattr_Player player (with_drafted true);
      player ← setattr_Player player (with_draft_price (Some draft_price));
      player ← setattr_Player player (with_drafted_by (Some drafted_by));
      commit ;;
      mret (Player_to_dict player)
  end.

(** [DELETE /api/players]. *)
Definition clear_players : M value :=
  select_Player ;;
  players ← select_Player;
  for_ players delete_Player ;;
  commit ;;
  mret (VDict [("message", VStr "All players cleared")]).

(** ** Team handlers (main.py) *)

(** [GET /api/teams]. *)
Definition get_teams : M value :=
  st ← get_pending;
  teams ← select_Team;
  mret (VList ((λ t, Team_to_dict (load_Team st t) true) <$> teams)).

(** [GET /api/teams/{team_id}]. *)
Definition get_team (team_id : Z) : M value :=
  st ← get_pending;
  team ← Team_by_id team_id;
  match team with
  | None => raise (HTTPException 404 "Team not found")
  | Some team => mret (Team_to_dict (load_Team st team) true)
  end.

(** [POST /api/teams]. *)
Definition create_team (team_data : TeamCreate) : M value :=
  rows ← select_Team;
  existing_team ←
    scalar_one_or_none
      (filter (λ t, team_name t.2 = tc_name team_data) rows);
  match existing_team with
  | Some _ => raise (HTTPException 400 "Team name already exists")
  | None =>
      let team := mkTeam (tc_name team_data) (tc_budget team_data) in
      i ← add_Team team;
      commit ;;
      st ← get_pending;
      mret (Team_to_dict (load_Team st (i, team)) false)
  end.

(** [range(1, 13)]. *)
Definition range_1_13 : list Z := Z.of_nat <$> seq 1 12.

(** The body of [for i in range(1, 13)], with the list it appends to. *)
Fixpoint initialize_rows (range : list Z) (teams_created : list (Z * Team))
  : M (list (Z * Team)) :=
  match range with
  | [] => mret teams_created
  | i :: range' =>
      let team := mkTeam ("Team " +:+ pretty i) 200 in
      k ← add_Team team;
      initialize_rows range' (teams_created ++ [(k, team)])%list
  end.

(** [POST /api/teams/initialize]. *)
Definition initialize_teams : M value :=
  existing_teams ← select_Team;
  match existing_teams with
  | _ :: _ =>
      raise (HTTPException 400 "Teams already initialized. Clear teams first.")
  | [] =>
      teams_created ← initialize_rows range_1_13 [];
      commit ;;
      st ← get_pending;
      mret (VDict
              [("message", VStr "Successfully initialized 12 teams");
               ("teams",
                VList ((λ t, Team_to_dict (load_Team st t) false)
                         <$> teams_created))])
  end.

(** [PATCH /api/teams/{team_id}]. *)
Definition update_team (team_id : Z) (team_data : TeamUpdate) : M value :=
  team ← Team_by_id team_id;
  match team with
  | None => raise (HTTPException 404 "Team not found")
  | Some team =>
      team ← match tu_name team_data with
             | Some new_name =>
                 rows ← select_Team;
                 name_check ←
                   scalar_one_or_none
                     (filter (λ t, team_name t.2 = new_name ∧ t.1 ≠ team_id)
                             rows);
                 match name_check with
                 | Some _ =>
                     raise (HTTPException 400 "Team name already exists")
                 | None => setattr_Team team (with_team_name new_name)
                 end
             | None => mret team
             end;
      team ← match tu_budget team_data with
             | Some new_budget => setattr_Team team (with_budget new_budget)
             | None => mret team
             end;
      commit ;;
      st ← get_pending;
      mret (Team_to_dict (load_Team st team) false)
  end.

(** [DELETE /api/teams/{team_id}]. *)
Definition delete_team (team_id : Z) : M value :=
  st ← get_pending;
  team ← Team_by_id team_id;
  match team with
  | None => raise (HTTPException 404 "Team not found")
  | Some team =>
      match players_of st team_id with
      | _ :: _ =>
          raise (HTTPException 400
            "Cannot delete team with drafted players. Undraft players first.")
      | [] =>
          delete_Team team ;;
          commit ;;
          mret (VDict [("message",
                        VStr ("Team '" +:+ team_name team.2 +:+ "' deleted"))])
      end
  end.

(** [DELETE /api/teams]. *)
Definition clear_teams : M value :=
  rows ← select_Player;
  let players := filter (λ p, fantasy_team_id p.2 ≠ None) rows in
  for_ players (λ player,
    setattr_Player player (with_fantasy_team_id None) ;; mret ()) ;;
  teams ← select_Team;
  for_ teams delete_Team ;;
  commit ;;
  mret (VDict [("message", VStr "All teams cleared")]).

(** ** The API as a whole *)

Inductive request :=
| GET_root
| GET_players
| POST_players_upload (filename : string) (contents : list Byte.byte)
| PATCH_player_draft (player_id draft_price : Z) (drafted_by : string)
                     (team_id : option Z)
| DELETE_players
| GET_teams
| GET_team (team_id : Z)
| POST_teams (team_data : TeamCreate)
| POST_teams_initialize
| PATCH_team (team_id : Z) (team_data : TeamUpdate)
| DELETE_team (team_id : Z)
| DELETE_teams.

Definition handle (float_of_str : string → option float)
    (decode_utf8 : list Byte.byte → option string)
    (DictReader : string → Reader) (r : request) : M value :=
  match r with
  | GET_root => root
  | GET_players => get_players
  | POST_players_upload filename contents =>
      upload_players float_of_str decode_utf8 DictReader filename contents
  | PATCH_player_draft player_id draft_price drafted_by team_id =>
      draft_player player_id draft_price drafted_by team_id
  | DELETE_players => clear_players
  | GET_teams => get_teams
  | GET_team team_id => get_team team_id
  | POST_teams team_data => create_team team_data
  | POST_teams_initialize => initialize_teams
  | PATCH_team team_id team_data => update_team team_id team_data
  | DELETE_team team_id => delete_team team_id
  | DELETE_teams => clear_teams
  end.

(** ** Specification-side definitions *)

(** Spent, in the words of the specification: the sum of [draft_price]
    over the players, a null price counting as 0. *)
Definition spent_spec (ps : list (Z * Player)) : Z :=
  foldr (λ p acc, default 0 (draft_price p.2) + acc) 0 ps.

(** Referential integrity: a set [fantasy_team_id] names a team. *)
Definition refs_ok (db : Store) : Prop :=
  ∀ i p t, players db !! i = Some p → fantasy_team_id p = Some t →
           is_Some (teams db !! t).

(** The unique constraint on [teams.name]. *)
Definition names_unique (db : Store) : Prop :=
  ∀ i j ti tj, teams db !! i = Some ti → teams db !! j = Some tj →
               team_name ti = team_name tj → i = j.

(** The player a successful draft leaves behind. *)
Definition drafted_as (draft_price : Z) (drafted_by : string)
    (team_id : option Z) (p : Player) : Player :=
  mkPlayer (name p) (position p) (team p) (projected_points p)
           true (Some draft_price) (Some drafted_by)
           (match team_id with Some t => Some t | None => fantasy_team_id p end).

(** The team a draft names, when it names one that does not exist. *)
Definition missing_team (db : Store) (team_id : option Z) : option Z :=
  match team_id with
  | Some t => match teams db !! t with Some _ => None | None => Some t end
  | None => None
  end.

(** The rows the two name queries select. *)
Definition named (db : Store) (n : string) : list (Z * Team) :=
  filter (λ t, team_name t.2 = n) (map_to_list (teams db)).

Definition named_other (db : Store) (n : string) (i : Z) : list (Z * Team) :=
  filter (λ t, team_name t.2 = n ∧ t.1 ≠ i) (map_to_list (teams db)).

(** The store after a team is added. *)
Definition created (db : Store) (t : Team) : Store :=
  mkStore (players db) (<[next_id (teams db) := t]> (teams db)).

(** The row an update leaves behind. *)
Definition updated (T : Team) (td : TeamUpdate) : Team :=
  let T1 := match tu_name td with Some n => with_team_name n T | None => T end in
  match tu_budget td with Some b => with_budget b T1 | None => T1 end.

(** The players table after the players of one upload are added. *)
Definition added (m : gmap Z Player) (ps : list Player) : gmap Z Player :=
  foldl (λ m p, <[next_id m := p]> m) m ps.

(** All the rows of a file as players, or the first error. *)
Fixpoint Players_of_rows (float_of_str : string → option float)
    (rows : list Row) : outcome (list Player) :=
  match rows with
  | [] => Ok []
  | row :: rows' =>
      match Player_of_row float_of_str row with
      | Ok p =>
          match Players_of_rows float_of_str rows' with
          | Ok ps => Ok (p :: ps)
          | Raise e => Raise e
          end
      | Raise e => Raise e
      end
  end.

(** The teams table after the initialization loop, the objects the
    loop collects, and the response built from them. *)
Definition Team_i (i : Z) : Team := mkTeam ("Team " +:+ pretty i) 200.

Definition initialized (m : gmap Z Team) (range : list Z) : gmap Z Team :=
  foldl (λ m i, <[next_id m := Team_i i]> m) m range.

Fixpoint initialized_rows (m : gmap Z Team) (range : list Z)
  : list (Z * Team) :=
  match range with
  | [] => []
  | i :: range' =>
      (next_id m, Team_i i)
        :: initialized_rows (<[next_id m := Team_i i]> m) range'
  end.

Definition initialize_response (db : Store) : value :=
  let db' := mkStore (players db) (initialized (teams db) range_1_13) in
  VDict [("message", VStr "Successfully initialized 12 teams");
         ("teams",
          VList ((λ t, Team_to_dict (load_Team db' t) false)
                   <$> initialized_rows (teams db) range_1_13))].



Definition title_row (n p t pp : option string) : Row :=
  <["Name" := n]> (<["Position" := p]> (<["Team" := t]>
    (<["Projected Points" := pp]> ∅))).



(** ** Sample data *)

(** A reader of plain decimal numerals ([340], [340.5]); it stands in
    for the builtin [float] where an example needs a concrete reader. *)
Fixpoint digits (s : string) (acc : Z) : option Z :=
  match s with
  | EmptyString => Some acc
  | String c s' =>
      let d := Z.of_N (Ascii.N_of_ascii c) - 48 in
      if ((0 <=? d) && (d <=? 9))%Z then digits s' (10 * acc + d) else None
  end.

Fixpoint split_dot (s : string) : string * option string :=
  match s with
  | EmptyString => (EmptyString, None)
  | String c s' =>
      if Ascii.eqb c "."%char then (EmptyString, Some s')
      else let '(a, b) := split_dot s' in (String c a, b)
  end.

Definition decimal_float (s : string) : option float :=
  let '(int_part, frac_part) := split_dot s in
  let frac := default EmptyString frac_part in
  if String.eqb int_part "" then None
  else
    match digits (int_part +:+ frac) 0 with
    | Some n =>
        Some (PrimFloat.of_uint63 (Uint63.of_Z n)
              / PrimFloat.of_uint63
                  (Uint63.of_Z (10 ^ Z.of_nat (String.length frac))))%float
    | None => None
    end.

(** A byte between two bounds. *)
Definition between (lo hi : N) (b : Byte.byte) : bool :=
  ((lo <=? Byte.to_N b) && (Byte.to_N b <=? hi))%N.

(** Well-formed UTF-8: no overlong form, no surrogate, nothing above
    U+10FFFF. *)
Fixpoint well_formed (bs : list Byte.byte) : bool :=
  match bs with
  | [] => true
  | b :: bs1 =>
      if between 0 127 b then well_formed bs1
      else
        match bs1 with
        | [] => false
        | c1 :: bs2 =>
            if between 194 223 b then between 128 191 c1 && well_formed bs2
            else
              match bs2 with
              | [] => false
              | c2 :: bs3 =>
                  if between 224 239 b then
                    between (if between 224 224 b then 160 else 128)
                            (if between 237 237 b then 159 else 191) c1
                    && between 128 191 c2 && well_formed bs3
                  else
                    match bs3 with
                    | [] => false
                    | c3 :: bs4 =>
                        between 240 244 b
                        && between (if between 240 240 b then 144 else 128)
                                   (if between 244 244 b then 143 else 191) c1
                        && between 128 191 c2 && between 128 191 c3
                        && well_formed bs4
                    end
              end
        end
  end.

(** A decoder that stands in for [bytes.decode('utf-8')] where an
    example needs a concrete one; the text is kept as its bytes. *)
Definition utf8 (bs : list Byte.byte) : option string :=
  if well_formed bs then Some (string_of_list_byte bs) else None.

Fixpoint split_on (sep : ascii) (s : string) : list string :=
  match s with
  | EmptyString => [EmptyString]
  | String c s' =>
      if Ascii.eqb c sep then EmptyString :: split_on sep s'
      else
        match split_on sep s' with
        | f :: fs => String c f :: fs
        | [] => [String c EmptyString]
        end
  end.

Fixpoint cells (fieldnames fields : list string) : Row :=
  match fieldnames, fields with
  | [], _ => ∅
  | k :: fieldnames', [] => <[k := None]> (cells fieldnames' [])
  | k :: fieldnames', v :: fields' =>
      <[k := Some v]> (cells fieldnames' fields')
  end.

(** A reader that stands in for [csv.DictReader] on plain files: lines
    end in a line feed, cells are separated by commas, nothing is
    quoted, the first line is the header, empty lines are skipped. *)
Definition plain_csv (csv_text : string) : Reader :=
  match filter (λ l, l ≠ "") (split_on "010"%char csv_text) with
  | [] => mkReader [] false
  | header :: lines =>
      mkReader
        (cells (split_on ","%char header) <$> (split_on ","%char <$> lines))
        false
  end.

(** A reader that fails at the first line, whatever the text. *)
Definition broken_csv (csv_text : string) : Reader := mkReader [] true.

Definition mahomes : Player :=
  mkPlayer (Some "Patrick Mahomes") (Some "QB") (Some "KC")
           (Some 350.5%float) false None None None.

Definition test_team : Team := mkTeam "Test Team" 200.

Definition sample_db : Store :=
  mkStore {[ 1 := mahomes ]} {[ 1 := test_team ]}.

(** A row of a file with both projected-points columns, the lower-snake
    cell empty: header [name,projected_points,Projected Points], line
    [Josh Allen,,12.5]. *)
Definition both_columns_row : Row :=
  <["name" := Some "Josh Allen"]> (<["projected_points" := Some ""]>
    (<["Projected Points" := Some "12.5"]> ∅)).

Definition both_columns_csv : list Byte.byte :=
  list_byte_of_string "name,projected_points,Projected Points
Josh Allen,,12.5
".

(** The row of [test_upload_csv_title_case_columns], and its file. *)
Definition burrow_row : Row :=
  title_row (Some "Joe Burrow") (Some "QB") (Some "CIN") (Some "330.0").

Definition burrow_csv : list Byte.byte :=
  list_byte_of_string "Name,Position,Team,Projected Points
Joe Burrow,QB,CIN,330.0
".

(** A file that is not UTF-8: the last byte is a Latin-1 e-acute. *)
Definition latin1_csv : list Byte.byte :=
  (list_byte_of_string "name
Jos" ++ [Byte.xe9])%list.

Definition burrow : Player :=
  mkPlayer (Some "Joe Burrow") (Some "QB") (Some "CIN") (Some 330.0%float)
           false None None None.

(** The fixture of [test_team_budget_calculation]. *)
Definition budget_db : Store :=
  mkStore
    (<[ 1 := mkPlayer (Some "Player 1") (Some "QB") (Some "TST") None
                      false (Some 50) None (Some 1) ]>
       {[ 2 := mkPlayer (Some "Player 2") (Some "RB") (Some "TST") None
                        false (Some 30) None (Some 1) ]})
    {[ 1 := mkTeam "Budget Test Team" 200 ]}.

(** ** Further specification-side definitions *)

(** What a lookup by id raises when it finds no row: the 404 for an
    id in range, [OverflowError] for one outside it. *)
Definition not_found (id : Z) (detail : string) : exn :=
  if int64 id then HTTPException 404 detail else OverflowError.

(** Every integer the flush would bind is in range. *)
Definition in_range (zs : list Z) : Prop := Forall (λ z, int64 z = true) zs.

Definition flush_ok (before after : Store) : Prop :=
  (∀ k p, players after !! k = Some p →
          in_range (Player_params (players before !! k) p)) ∧
  (∀ k T, teams after !! k = Some T →
          in_range (Team_params (teams before !! k) T)).


(** The league [initialize_teams] sets up. *)
Definition twelve_teams : gmap Z Team :=
  list_to_map ((λ i, (i, mkTeam ("Team " +:+ pretty i) 200)) <$> range_1_13).

(** What one player adds to the spent of team [t]. *)
Definition share (t : Z) (p : Player) : Z :=
  if decide (fantasy_team_id p = Some t) then default 0 (draft_price p) else 0.

(** The draft columns of a row agree: a drafted player has a price and
    a label; an undrafted one has no price, no label and no team. *)
Definition draft_state_ok (p : Player) : Prop :=
  if drafted p
  then is_Some (draft_price p) ∧ is_Some (drafted_by p)
  else draft_price p = None ∧ drafted_by p = None ∧ fantasy_team_id p = None.

Definition draft_states_ok (db : Store) : Prop :=
  ∀ i p, players db !! i = Some p → draft_state_ok p.

(** The columns of a player that describe the person. *)
Definition same_person (p p' : Player) : Prop :=
  name p' = name p ∧ position p' = position p ∧ team p' = team p ∧
  projected_points p' = projected_points p.

(** A league of two teams, one player on the first. *)
Definition kelce : Player :=
  mkPlayer (Some "Travis Kelce") (Some "TE") (Some "KC") (Some 220.0%float)
           true (Some 45) (Some "Team One") (Some 1).

Definition league_db : Store :=
  mkStore {[ 7 := kelce ]}
          (<[ 1 := mkTeam "Team One" 200 ]> {[ 2 := mkTeam "Team Two" 200 ]}).

(** ** Proof support *)

(** Unfold the session primitives and evaluate. *)
Ltac run_handler :=
  unfold run_request, Player_by_id, Team_by_id, select_Player, select_Team,
    setattr_Player, setattr_Team, add_Player, add_Team, delete_Player,
    delete_Team, get_pending, put_pending, commit, raise,
    mbind, M_bind, mret, M_ret;
  cbn -[flush_params].

(** ** What a commit binds *)

Lemma forallb_in_range zs : forallb int64 zs = true ↔ in_range zs.
Proof.
  unfold in_range. rewrite forallb_forall, Forall_forall.
  by setoid_rewrite list_elem_of_In.
Qed.

Lemma flush_params_ok before after :
  forallb int64 (flush_params before after) = true ↔ flush_ok before after.
Proof.
  rewrite forallb_in_range. unfold flush_ok, flush_params, in_range.
  rewrite Forall_app, !Forall_forall. split.
  - intros [Hp Ht]. split.
    + intros k p Hk. apply Forall_forall. intros z Hz. apply Hp.
      apply list_elem_of_bind. exists (k, p). split; [done|].
      by apply elem_of_map_to_list.
    + intros k T Hk. apply Forall_forall. intros z Hz. apply Ht.
      apply list_elem_of_bind. exists (k, T). split; [done|].
      by apply elem_of_map_to_list.
  - intros [Hp Ht]. split.
    + intros z ([k p] & Hz & Hk%elem_of_map_to_list)%list_elem_of_bind.
      specialize (Hp k p Hk). rewrite Forall_forall in Hp. by apply Hp.
    + intros z ([k T] & Hz & Hk%elem_of_map_to_list)%list_elem_of_bind.
      specialize (Ht k T Hk). rewrite Forall_forall in Ht. by apply Ht.
Qed.

Lemma bound_same o : bound o o = [].
Proof. unfold bound. by rewrite decide_True. Qed.

Lemma bound_None o : bound o None = [].
Proof. unfold bound. by destruct (decide (o = None)). Qed.

Lemma Player_params_same p : Player_params (Some p) p = [].
Proof. unfold Player_params. by rewrite !bound_same. Qed.

Lemma Team_params_same T : Team_params (Some T) T = [].
Proof. unfold Team_params. by rewrite decide_True. Qed.

(** A row that is as it was binds nothing. *)
Lemma players_kept_in_range (before : gmap Z Player) k p :
  before !! k = Some p → in_range (Player_params (before !! k) p).
Proof. intros ->. rewrite Player_params_same. constructor. Qed.

Lemma teams_kept_in_range (before : gmap Z Team) k T :
  before !! k = Some T → in_range (Team_params (before !! k) T).
Proof. intros ->. rewrite Team_params_same. constructor. Qed.

Lemma bool_eq_iff (a b : bool) : (a = true ↔ b = true) → a = b.
Proof. destruct a, b; intros [H1 H2]; try done; [symmetry|]; auto. Qed.

(** A session that rewrote one player binds that player's parameters. *)
Lemma flush_one_player db i p' :
  forallb int64
    (flush_params db (mkStore (<[i := p']> (players db)) (teams db)))
  = forallb int64 (Player_params (players db !! i) p').
Proof.
  apply bool_eq_iff. rewrite flush_params_ok, forallb_in_range. split.
  - intros [Hp _]. apply (Hp i p'). cbn. apply lookup_insert_eq.
  - intros H. split; cbn.
    + intros k p Hk. destruct (decide (i = k)) as [<-|Hne].
      * rewrite lookup_insert_eq in Hk. by injection Hk as <-.
      * rewrite lookup_insert_ne in Hk by done. by apply players_kept_in_range.
    + intros k T. apply teams_kept_in_range.
Qed.

Lemma flush_one_team db i T' :
  forallb int64
    (flush_params db (mkStore (players db) (<[i := T']> (teams db))))
  = forallb int64 (Team_params (teams db !! i) T').
Proof.
  apply bool_eq_iff. rewrite flush_params_ok, forallb_in_range. split.
  - intros [_ Ht]. apply (Ht i T'). cbn. apply lookup_insert_eq.
  - intros H. split; cbn.
    + intros k p. apply players_kept_in_range.
    + intros k T Hk. destruct (decide (i = k)) as [<-|Hne].
      * rewrite lookup_insert_eq in Hk. by injection Hk as <-.
      * rewrite lookup_insert_ne in Hk by done. by apply teams_kept_in_range.
Qed.

Lemma flush_true before after :
  flush_ok before after → forallb int64 (flush_params before after) = true.
Proof. apply flush_params_ok. Qed.

(** ** Budget accounting *)

Lemma foldl_add_draft_prices (ps : list (Z * Player)) (a : Z) :
  foldl (λ acc p, acc + draft_price_or_0 p) a ps = a + spent_spec ps.
Proof.
  revert a. induction ps as [|p ps IH]; intros a; simpl.
  - lia.
  - rewrite IH. unfold draft_price_or_0.
    destruct (draft_price p.2) as [z|]; simpl; [|lia].
    destruct (decide (z = 0)); lia.
Qed.

Lemma sum_draft_prices_spec (ps : list (Z * Player)) :
  sum_draft_prices ps = spent_spec ps.
Proof. unfold sum_draft_prices. rewrite foldl_add_draft_prices. lia. Qed.

Lemma Team_to_dict_spent (self : TeamObj) (ps : list (Z * Player)) (b : bool) :
  team_players self = Some ps →
  item "spent" (Team_to_dict self b) = Some (VInt (spent_spec ps)) ∧
  item "remaining_budget" (Team_to_dict self b)
    = Some (VInt (budget (team_row self) - spent_spec ps)).
Proof.
  intros H. unfold Team_to_dict, self_players. rewrite H.
  rewrite sum_draft_prices_spec. by destruct b.
Qed.

(** C2. For every team and every list [ps] of associated players:
    [get_spent] is the sum of the draft prices over [ps] with a null
    price counted as 0, whether [ps] is passed in or is the team's
    loaded relationship; [get_remaining_budget] is the budget minus that
    sum; [to_dict] reports the same two numbers, also for the
    relationship loaded from a store; with no players, spent is 0 and
    the remaining budget is the budget. *)
Theorem budget_accounting (i : Z) (T : Team) (other : option (list (Z * Player)))
    (ps : list (Z * Player)) (include_players : bool) (db : Store) :
  let given := mkTeamObj i T other in
  let loaded := mkTeamObj i T (Some ps) in
  get_spent given (Some ps) = Ok (spent_spec ps) ∧
  get_remaining_budget given (Some ps) = Ok (budget T - spent_spec ps) ∧
  get_spent loaded None = Ok (spent_spec ps) ∧
  get_remaining_budget loaded None = Ok (budget T - spent_spec ps) ∧
  item "spent" (Team_to_dict loaded include_players)
    = Some (VInt (spent_spec ps)) ∧
  item "remaining_budget" (Team_to_dict loaded include_players)
    = Some (VInt (budget T - spent_spec ps)) ∧
  item "spent" (Team_to_dict (load_Team db (i, T)) include_players)
    = Some (VInt (spent_spec (players_of db i))) ∧
  item "remaining_budget" (Team_to_dict (load_Team db (i, T)) include_players)
    = Some (VInt (budget T - spent_spec (players_of db i))) ∧
  get_spent given (Some []) = Ok 0 ∧
  get_remaining_budget given (Some []) = Ok (budget T) ∧
  item "spent" (Team_to_dict (mkTeamObj i T (Some [])) include_players)
    = Some (VInt 0) ∧
  item "remaining_budget" (Team_to_dict (mkTeamObj i T (Some [])) include_players)
    = Some (VInt (budget T)).
Proof.
  intros given loaded. subst given loaded.
  pose proof (Team_to_dict_spent (mkTeamObj i T (Some ps)) ps include_players
                eq_refl) as [-> ->].
  pose proof (Team_to_dict_spent (load_Team db (i, T)) (players_of db i)
                include_players eq_refl) as [-> ->].
  pose proof (Team_to_dict_spent (mkTeamObj i T (Some [])) [] include_players
                eq_refl) as [-> ->].
  unfold get_remaining_budget, get_spent. cbn [self_players team_players].
  rewrite !sum_draft_prices_spec. cbn [team_row spent_spec foldr fst snd].
  rewrite Z.sub_0_r. repeat split; reflexivity.
Qed.

Example budget_db_spent :
  item "spent" (Team_to_dict (load_Team budget_db (1, mkTeam "Budget Test Team" 200)) false)
    = Some (VInt 80) ∧
  item "remaining_budget"
       (Team_to_dict (load_Team budget_db (1, mkTeam "Budget Test Team" 200)) false)
    = Some (VInt 120).
Proof. split; vm_compute; reflexivity. Qed.

(** ** The draft transaction *)

Lemma with_draft_chain price label tid p :
  with_drafted_by (Some label)
    (with_draft_price (Some price)
       (with_drafted true
          (match tid with
           | Some t => with_fantasy_team_id (Some t) p
           | None => p
           end))) = drafted_as price label tid p.
Proof. by destruct tid, p. Qed.

(** What one draft request does, case by case. *)
Lemma draft_player_run db pid price label tid :
  run_request (draft_player pid price label tid) db =
  match players db !! pid with
  | None => (Raise (not_found pid "Player not found"), db)
  | Some p =>
      match missing_team db tid with
      | Some t => (Raise (not_found t "Team not found"), db)
      | None =>
          if forallb int64
               (Player_params (Some p) (drafted_as price label tid p))
          then
            (Ok (Player_to_dict (pid, drafted_as price label tid p)),
             mkStore (<[pid := drafted_as price label tid p]> (players db))
                     (teams db))
          else (Raise OverflowError, db)
      end
  end.
Proof.
  unfold draft_player, missing_team, not_found. run_handler.
  destruct (players db !! pid) as [p|] eqn:Hp; cbn -[flush_params].
  2:{ by destruct (int64 pid). }
  destruct tid as [t|]; cbn -[flush_params].
  - destruct (teams db !! t) as [T|] eqn:Ht; cbn -[flush_params].
    2:{ by destruct (int64 t). }
    rewrite !insert_insert_eq.
    rewrite (with_draft_chain price label (Some t) p).
    rewrite flush_one_player, Hp. by destruct (forallb _ _).
  - rewrite !insert_insert_eq.
    rewrite (with_draft_chain price label None p).
    rewrite flush_one_player, Hp. by destruct (forallb _ _).
Qed.

Lemma missing_team_None db tid :
  missing_team db tid = None ↔ ∀ t, tid = Some t → is_Some (teams db !! t).
Proof.
  unfold missing_team. destruct tid as [t|].
  - destruct (teams db !! t) eqn:Ht; split; try done.
    + intros _ t' [= <-]. rewrite Ht. eauto.
    + intros H. destruct (H t eq_refl) as [? Hx]. congruence.
  - split; [intros _ t; done | done].
Qed.

Lemma in_range_bound old new :
  (∀ z, new = Some z → int64 z = true) → in_range (bound old new).
Proof.
  intros H. unfold bound, in_range. destruct (decide (old = new)); [constructor|].
  destruct new as [z|]; cbn; [|constructor]. constructor; [by apply H|constructor].
Qed.

(** A draft at a price and onto a team in range binds parameters in
    range. *)
Lemma draft_in_range p price label tid :
  int64 price = true →
  (∀ t, tid = Some t → int64 t = true) →
  forallb int64 (Player_params (Some p) (drafted_as price label tid p)) = true.
Proof.
  intros Hprice Ht. apply forallb_in_range. unfold Player_params, in_range.
  apply Forall_app. split.
  - apply in_range_bound. by intros z [= <-].
  - destruct tid as [t|]; cbn.
    + apply in_range_bound. intros z [= <-]. by apply Ht.
    + rewrite bound_same. constructor.
Qed.

(** C1, amended. Drafting an existing player at a price in the signed
    64-bit range, with no team or with an existing team whose id is in
    that range, succeeds: the player's row becomes [drafted = true],
    [draft_price = price], [drafted_by = label]; [fantasy_team_id] is
    the given team when one is given and what it was when none is; the
    other columns, the other players and the teams stay; the response is
    the projection of the updated player. *)
Theorem draft_player_succeeds (db : Store) (pid : Z) (p : Player)
    (price : Z) (label : string) (tid : option Z) :
  players db !! pid = Some p →
  (∀ t, tid = Some t → is_Some (teams db !! t) ∧ int64 t = true) →
  int64 price = true →
  ∃ p' : Player,
    run_request (draft_player pid price label tid) db
      = (Ok (Player_to_dict (pid, p')),
         mkStore (<[pid := p']> (players db)) (teams db)) ∧
    drafted p' = true ∧
    draft_price p' = Some price ∧
    drafted_by p' = Some label ∧
    fantasy_team_id p'
      = match tid with Some t => Some t | None => fantasy_team_id p end ∧
    name p' = name p ∧ position p' = position p ∧ team p' = team p ∧
    projected_points p' = projected_points p.
Proof.
  intros Hp Ht Hprice. exists (drafted_as price label tid p).
  rewrite draft_player_run, Hp.
  assert (Hm : missing_team db tid = None).
  { apply missing_team_None. intros t Htid. by destruct (Ht t Htid). }
  rewrite Hm, draft_in_range; [by repeat split|done|].
  intros t Htid. by destruct (Ht t Htid).
Qed.

(** Where C1 fails as stated: a price outside the signed 64-bit range
    cannot be stored; the draft raises [OverflowError] and the player
    stays undrafted. *)
Lemma draft_player_price_overflow :
  run_request (draft_player 1 (2 ^ 63) "Team A" None) sample_db
  = (Raise OverflowError, sample_db).
Proof. vm_compute. reflexivity. Qed.

(** Drafting without a team id: the player had no team and has none
    after. *)
Example draft_player_no_team :
  run_request (draft_player 1 50 "Team A" None) sample_db
  = (Ok (Player_to_dict (1, drafted_as 50 "Team A" None mahomes)),
     mkStore {[ 1 := drafted_as 50 "Team A" None mahomes ]} (teams sample_db)) ∧
  fantasy_team_id (drafted_as 50 "Team A" None mahomes) = None.
Proof. split; vm_compute; reflexivity. Qed.

(** C4, amended. A draft that raises leaves the store, hence every
    column of every player, as it was, whatever it raises.  With the
    player id, the price and the team id in the signed 64-bit range, a
    draft raises exactly when the player id names no player or a given
    team id names no team, and what it raises is then the 404 "Player
    not found", respectively "Team not found". *)
Theorem draft_player_not_found (db : Store) (pid price : Z) (label : string)
    (tid : option Z) :
  let r := run_request (draft_player pid price label tid) db in
  (is_ok r.1 = false → r.2 = db) ∧
  (int64 pid = true →
   int64 price = true →
   (∀ t, tid = Some t → int64 t = true) →
   (is_ok r.1 = false ↔
      players db !! pid = None ∨ ∃ t, tid = Some t ∧ teams db !! t = None) ∧
   (r.1 = Raise (HTTPException 404 "Player not found") ↔
      players db !! pid = None) ∧
   (r.1 = Raise (HTTPException 404 "Team not found") ↔
      is_Some (players db !! pid) ∧
      ∃ t, tid = Some t ∧ teams db !! t = None) ∧
   (is_ok r.1 = false →
      r.1 = Raise (HTTPException 404 "Player not found") ∨
      r.1 = Raise (HTTPException 404 "Team not found"))).
Proof.
  cbn zeta. rewrite draft_player_run. split.
  { destruct (players db !! pid); [|done].
    destruct (missing_team db tid); [done|]. by destruct (forallb _ _). }
  intros Hpid Hprice Htid. unfold missing_team, not_found. rewrite Hpid.
  destruct (players db !! pid) as [p|] eqn:Hp.
  - destruct tid as [t|]; [destruct (teams db !! t) as [T|] eqn:Ht|].
    + rewrite draft_in_range by done. cbn. repeat split; try done.
      * intros [|(t' & [= <-] & ?)]; congruence.
      * intros (_ & t' & [= <-] & ?); congruence.
    + rewrite (Htid t eq_refl). cbn. repeat split; eauto; done.
    + rewrite draft_in_range by done. cbn. repeat split; try done.
      * intros [|(t' & ? & ?)]; congruence.
      * intros (_ & t' & ? & ?); congruence.
  - cbn. repeat split; eauto; try done.
    intros ([? ?] & _). congruence.
Qed.

(** Where C4 fails as stated: a draft of an existing player with no
    team id raises, though nothing fails to resolve, when the price is
    outside the signed 64-bit range; and a player id outside that range
    raises [OverflowError], not the 404. *)
Lemma draft_player_overflow_not_404 :
  players sample_db !! 1 = Some mahomes ∧
  (run_request (draft_player 1 (2 ^ 63) "Team A" None) sample_db).1
    = Raise OverflowError ∧
  players sample_db !! (2 ^ 63) = None ∧
  (run_request (draft_player (2 ^ 63) 50 "Team A" None) sample_db).1
    = Raise OverflowError.
Proof. repeat split; vm_compute; reflexivity. Qed.

(** C5, amended. Drafting an existing player twice, each time at a
    price in the signed 64-bit range onto an existing team whose id is
    in that range, succeeds both times (the second draft finds the
    player already drafted), and the player ends with the second price,
    the second label and the second team. *)
Theorem draft_player_twice (db : Store) (pid : Z) (p : Player)
    (price1 price2 : Z) (label1 label2 : string) (t1 t2 : Z) :
  players db !! pid = Some p →
  is_Some (teams db !! t1) →
  is_Some (teams db !! t2) →
  int64 price1 = true → int64 price2 = true →
  int64 t1 = true → int64 t2 = true →
  ∃ p1 p2 db1 db2,
    run_request (draft_player pid price1 label1 (Some t1)) db
      = (Ok (Player_to_dict (pid, p1)), db1) ∧
    players db1 !! pid = Some p1 ∧ drafted p1 = true ∧
    run_request (draft_player pid price2 label2 (Some t2)) db1
      = (Ok (Player_to_dict (pid, p2)), db2) ∧
    players db2 !! pid = Some p2 ∧
    drafted p2 = true ∧
    draft_price p2 = Some price2 ∧
    drafted_by p2 = Some label2 ∧
    fantasy_team_id p2 = Some t2.
Proof.
  intros Hp [T1 H1] [T2 H2] Hp1 Hp2 Ht1 Ht2.
  eexists _, _, _, _. split.
  { rewrite draft_player_run, Hp. cbn [missing_team]. rewrite H1.
    rewrite draft_in_range; [reflexivity|done|by intros t [= <-]]. }
  split; [apply lookup_insert_eq|]. split; [done|]. split.
  { rewrite draft_player_run. cbn [missing_team players teams].
    rewrite lookup_insert_eq, H2.
    rewrite draft_in_range; [reflexivity|done|by intros t [= <-]]. }
  split; [apply lookup_insert_eq|]. done.
Qed.

(** Where C5 fails as stated: after a first draft, a second draft at a
    price outside the signed 64-bit range is rejected, and the first
    draft's price, label and team stay in effect. *)
Lemma draft_player_twice_overflow :
  ∃ r1 db1,
    run_request (draft_player 7 60 "Team Two" (Some 2)) league_db
      = (Ok r1, db1) ∧
    run_request (draft_player 7 (2 ^ 63) "Team One" (Some 1)) db1
      = (Raise OverflowError, db1) ∧
    players db1 !! 7 = Some (drafted_as 60 "Team Two" (Some 2) kelce).
Proof. eexists _, _. repeat split; vm_compute; reflexivity. Qed.

(** Without a team id the second draft keeps the team of the first. *)
Lemma draft_player_twice_no_team db pid p price1 price2 label1 label2 tid1 :
  players db !! pid = Some p →
  missing_team db tid1 = None →
  int64 price1 = true → int64 price2 = true →
  (∀ t, tid1 = Some t → int64 t = true) →
  ∃ db1 db2 r1 r2,
    run_request (draft_player pid price1 label1 tid1) db = (Ok r1, db1) ∧
    run_request (draft_player pid price2 label2 None) db1 = (Ok r2, db2) ∧
    players db2 !! pid
      = Some (drafted_as price2 label2 None (drafted_as price1 label1 tid1 p)).
Proof.
  intros Hp Ht Hp1 Hp2 Htid. eexists _, _, _, _. split.
  { rewrite draft_player_run, Hp, Ht, draft_in_range by done. reflexivity. }
  split.
  { rewrite draft_player_run. cbn [missing_team players].
    rewrite lookup_insert_eq, draft_in_range by done. reflexivity. }
  apply lookup_insert_eq.
Qed.

(** ** Loops over a table *)

(** A loop whose body always succeeds and only rewrites the pending
    view is a left fold over the pending view. *)
Lemma for_state {A} (l : list A) (body : A → M ()) (g : A → Store → Store) :
  (∀ x s, body x s = (Ok (), mkSession (committed s) (g x (pending s)))) →
  ∀ s, for_ l body s
       = (Ok (), mkSession (committed s) (foldl (λ st x, g x st) (pending s) l)).
Proof.
  intros Hbody. induction l as [|x l IH]; intros s.
  - by destruct s.
  - cbn [for_ foldl]. unfold mbind, M_bind. by rewrite Hbody, IH.
Qed.

Lemma foldl_players_store {B} (l : list B)
    (h : B → gmap Z Player → gmap Z Player) (st : Store) :
  foldl (λ st x, mkStore (h x (players st)) (teams st)) st l
  = mkStore (foldl (λ m x, h x m) (players st) l) (teams st).
Proof.
  revert st. induction l as [|x l IH]; intros st; [by destruct st|].
  cbn [foldl]. by rewrite IH.
Qed.

Lemma foldl_teams_store {B} (l : list B)
    (h : B → gmap Z Team → gmap Z Team) (st : Store) :
  foldl (λ st x, mkStore (players st) (h x (teams st))) st l
  = mkStore (players st) (foldl (λ m x, h x m) (teams st) l).
Proof.
  revert st. induction l as [|x l IH]; intros st; [by destruct st|].
  cbn [foldl]. by rewrite IH.
Qed.

Section table_folds.
Context {A : Type}.
Implicit Types (m : gmap Z A) (l : list (Z * A)).

Lemma foldl_delete_lookup l m k :
  foldl (λ m x, delete x.1 m) m l !! k
  = if decide (k ∈ l.*1) then None else m !! k.
Proof.
  revert m. induction l as [|[i a] l IH]; intros m;
    cbn [foldl fmap list_fmap fst].
  - rewrite decide_False; [done|]. apply not_elem_of_nil.
  - rewrite IH. destruct (decide (k ∈ l.*1)) as [Hin|Hin].
    + rewrite decide_True; [done|]. by right.
    + destruct (decide (k = i)) as [->|Hne].
      * rewrite lookup_delete_eq, decide_True; [done|]. by left.
      * rewrite lookup_delete_ne by done.
        rewrite decide_False; [done|]. intros [?|?]%elem_of_cons; done.
Qed.

(** Deleting every row a table lists empties it. *)
Lemma foldl_delete_all m :
  foldl (λ m x, delete x.1 m) m (map_to_list m) = ∅.
Proof.
  apply map_eq. intros k. rewrite foldl_delete_lookup, lookup_empty.
  case_decide as Hin; [done|].
  destruct (m !! k) as [a|] eqn:Hk; [|done].
  exfalso. apply Hin. apply list_elem_of_fmap. exists (k, a).
  split; [done|]. by apply elem_of_map_to_list.
Qed.

Lemma foldl_insert_lookup (f : A → A) l m k :
  NoDup l.*1 →
  foldl (λ m x, <[x.1 := f x.2]> m) m l !! k
  = match list_to_map (M := gmap Z A) l !! k with
    | Some a => Some (f a)
    | None => m !! k
    end.
Proof.
  revert m. induction l as [|[i a] l IH]; intros m Hnd;
    cbn [foldl fmap list_fmap fst snd list_to_map foldr].
  - by rewrite lookup_empty.
  - apply NoDup_cons in Hnd as [Hi Hnd]. rewrite IH by done.
    cbn. destruct (decide (k = i)) as [->|Hne].
    + rewrite (proj1 (not_elem_of_list_to_map (M := gmap Z) l i) Hi).
      by rewrite !lookup_insert_eq.
    + by rewrite !lookup_insert_ne.
Qed.
End table_folds.

Lemma with_fantasy_team_id_None_id p :
  fantasy_team_id p = None → with_fantasy_team_id None p = p.
Proof. destruct p; cbn. by intros ->. Qed.

(** Unassigning the players that have a team unassigns every player. *)
Lemma unassign_all (m : gmap Z Player) :
  foldl (λ m x, <[x.1 := with_fantasy_team_id None x.2]> m) m
        (filter (λ p, fantasy_team_id p.2 ≠ None) (map_to_list m))
  = with_fantasy_team_id None <$> m.
Proof.
  apply map_eq. intros k.
  rewrite foldl_insert_lookup.
  2:{ apply NoDup_fmap_fst.
      - intros i x y [_ Hx%elem_of_map_to_list]%list_elem_of_filter
                     [_ Hy%elem_of_map_to_list]%list_elem_of_filter.
        congruence.
      - apply NoDup_filter, NoDup_map_to_list. }
  rewrite lookup_fmap.
  destruct (list_to_map _ !! k) as [a|] eqn:Hk.
  - apply elem_of_list_to_map_2, list_elem_of_filter in Hk as [_ Hk].
    apply elem_of_map_to_list in Hk. by rewrite Hk.
  - destruct (m !! k) as [a|] eqn:Hm; [|done]. cbn.
    destruct (decide (fantasy_team_id a = None)) as [Hn|Hn].
    + by rewrite with_fantasy_team_id_None_id.
    + apply not_elem_of_list_to_map in Hk. exfalso. apply Hk.
      apply list_elem_of_fmap. exists (k, a). split; [done|].
      apply list_elem_of_filter. split; [done|]. by apply elem_of_map_to_list.
Qed.

(** ** Bulk clears *)

(** Deleting rows binds no integer, and neither does setting a column
    to null. *)
Lemma flush_clear_players db :
  forallb int64 (flush_params db (mkStore ∅ (teams db))) = true.
Proof.
  apply flush_true. split; cbn.
  - intros k p Hk. by rewrite lookup_empty in Hk.
  - intros k T. apply teams_kept_in_range.
Qed.

Lemma flush_clear_teams db :
  forallb int64
    (flush_params db (mkStore (with_fantasy_team_id None <$> players db) ∅))
  = true.
Proof.
  apply flush_true. split; cbn.
  - intros k p Hk. rewrite lookup_fmap in Hk.
    destruct (players db !! k) as [q|]; [|done]. injection Hk as <-.
    unfold Player_params. cbn. rewrite bound_same, bound_None. constructor.
  - intros k T Hk. by rewrite lookup_empty in Hk.
Qed.

Lemma clear_players_run db :
  run_request clear_players db
  = (Ok (VDict [("message", VStr "All players cleared")]),
     mkStore ∅ (teams db)).
Proof.
  unfold clear_players. run_handler.
  rewrite (for_state _ _
             (λ x st, mkStore (delete x.1 (players st)) (teams st))) by done.
  rewrite (foldl_players_store _ (λ x m, delete x.1 m)).
  cbn -[flush_params]. by rewrite foldl_delete_all, flush_clear_players.
Qed.

Lemma clear_teams_run db :
  run_request clear_teams db
  = (Ok (VDict [("message", VStr "All teams cleared")]),
     mkStore (with_fantasy_team_id None <$> players db) ∅).
Proof.
  unfold clear_teams. run_handler.
  rewrite (for_state _ _
             (λ x st, mkStore (<[x.1 := with_fantasy_team_id None x.2]>
                                 (players st)) (teams st))) by done.
  rewrite (foldl_players_store _
             (λ x m, <[x.1 := with_fantasy_team_id None x.2]> m)).
  cbn -[flush_params].
  rewrite (for_state _ _
             (λ x st, mkStore (players st) (delete x.1 (teams st)))) by done.
  rewrite (foldl_teams_store _ (λ x m, delete x.1 m)).
  cbn -[flush_params].
  by rewrite foldl_delete_all, unassign_all, flush_clear_teams.
Qed.

Lemma players_of_no_players (ts : gmap Z Team) (i : Z) :
  players_of (mkStore ∅ ts) i = [].
Proof. unfold players_of. cbn. by rewrite map_to_list_empty. Qed.

Lemma get_team_run db i :
  run_request (get_team i) db
  = match teams db !! i with
    | Some T => (Ok (Team_to_dict (load_Team db (i, T)) true), db)
    | None => (Raise (not_found i "Team not found"), db)
    end.
Proof.
  unfold get_team, not_found. run_handler.
  destruct (teams db !! i); [done|]. by destruct (int64 i).
Qed.

(** C9. From any store, clearing the teams succeeds; afterwards there
    is no team, the players are the same players (none added, none
    deleted), and each of them is as before except that its
    [fantasy_team_id] is null. *)
Theorem clear_teams_unassigns (db : Store) :
  ∃ db' : Store,
    run_request clear_teams db
      = (Ok (VDict [("message", VStr "All teams cleared")]), db') ∧
    teams db' = ∅ ∧
    dom (players db') = dom (players db) ∧
    ∀ i p, players db !! i = Some p →
      ∃ p', players db' !! i = Some p' ∧
            fantasy_team_id p' = None ∧
            name p' = name p ∧ position p' = position p ∧ team p' = team p ∧
            projected_points p' = projected_points p ∧
            drafted p' = drafted p ∧ draft_price p' = draft_price p ∧
            drafted_by p' = drafted_by p.
Proof.
  eexists. split; [apply clear_teams_run|]. cbn.
  split; [done|]. split; [apply dom_fmap_L|].
  intros i p Hp. exists (with_fantasy_team_id None p).
  rewrite lookup_fmap, Hp. by repeat split.
Qed.

(** C10. From any store, clearing the players succeeds and deletes
    every player, drafted or not, on a team or not; the teams table is
    left as it was, so each team, read back, has its id, name and
    budget, spent 0 and its whole budget remaining. *)
Theorem clear_players_frame (db : Store) :
  ∃ db' : Store,
    run_request clear_players db
      = (Ok (VDict [("message", VStr "All players cleared")]), db') ∧
    players db' = ∅ ∧
    teams db' = teams db ∧
    ∀ i T, teams db !! i = Some T →
      ∃ d, run_request (get_team i) db' = (Ok d, db') ∧
           item "id" d = Some (VInt i) ∧
           item "name" d = Some (VStr (team_name T)) ∧
           item "budget" d = Some (VInt (budget T)) ∧
           item "spent" d = Some (VInt 0) ∧
           item "remaining_budget" d = Some (VInt (budget T)) ∧
           item "players" d = Some (VList []).
Proof.
  eexists. split; [apply clear_players_run|]. cbn.
  split; [done|]. split; [done|].
  intros i T HT. eexists. rewrite get_team_run. cbn. rewrite HT.
  split; [reflexivity|].
  unfold Team_to_dict, load_Team. cbn. rewrite players_of_no_players. cbn.
  rewrite Z.sub_0_r. by repeat split.
Qed.

(** ** Team lifecycle *)

Lemma filter_at_most_one {A} (P : A → Prop) `{!∀ x, Decision (P x)}
    (l : list A) :
  NoDup l →
  (∀ x y, x ∈ l → y ∈ l → P x → P y → x = y) →
  filter P l = [] ∨ ∃ x, filter P l = [x].
Proof.
  intros Hnd Huniq.
  destruct (filter P l) as [|x [|y r]] eqn:Hf; [by left|by right; exists x|].
  exfalso.
  assert (Hx : x ∈ filter P l) by (rewrite Hf; left).
  assert (Hy : y ∈ filter P l) by (rewrite Hf; right; left).
  apply list_elem_of_filter in Hx as [HPx Hx].
  apply list_elem_of_filter in Hy as [HPy Hy].
  assert (x = y) as -> by eauto.
  assert (Hnd' : NoDup (filter P l)) by by apply NoDup_filter.
  rewrite Hf in Hnd'. apply NoDup_cons in Hnd' as [Hnin _].
  apply Hnin. left.
Qed.

Lemma named_at_most_one db n :
  names_unique db → named db n = [] ∨ ∃ x, named db n = [x].
Proof.
  intros Hu. apply filter_at_most_one; [apply NoDup_map_to_list|].
  intros [i T] [j T'] Hi%elem_of_map_to_list Hj%elem_of_map_to_list Hn Hn'.
  cbn in *. assert (i = j) as -> by (eapply Hu; eauto; congruence).
  congruence.
Qed.

Lemma named_other_at_most_one db n k :
  names_unique db → named_other db n k = [] ∨ ∃ x, named_other db n k = [x].
Proof.
  intros Hu. apply filter_at_most_one; [apply NoDup_map_to_list|].
  intros [i T] [j T'] Hi%elem_of_map_to_list Hj%elem_of_map_to_list
         [Hn _] [Hn' _].
  cbn in *. assert (i = j) as -> by (eapply Hu; eauto; congruence).
  congruence.
Qed.

Lemma named_cons db n x l :
  named db n = x :: l → teams db !! x.1 = Some x.2 ∧ team_name x.2 = n.
Proof.
  intros Hf.
  assert (H : x ∈ named db n) by (rewrite Hf; left).
  apply list_elem_of_filter in H as [Hn H]. destruct x as [i T].
  by apply elem_of_map_to_list in H.
Qed.

Lemma named_other_cons db n k x l :
  named_other db n k = x :: l →
  x.1 ≠ k ∧ teams db !! x.1 = Some x.2 ∧ team_name x.2 = n.
Proof.
  intros Hf.
  assert (H : x ∈ named_other db n k) by (rewrite Hf; left).
  apply list_elem_of_filter in H as [[Hn Hne] H]. destruct x as [i T].
  by apply elem_of_map_to_list in H.
Qed.

Lemma named_nil db n :
  named db n = [] ↔ ¬ ∃ i T, teams db !! i = Some T ∧ team_name T = n.
Proof.
  split.
  - intros Hnil (i & T & HT & Hn).
    assert (H : (i, T) ∈ named db n).
    { apply list_elem_of_filter. split; [done|]. by apply elem_of_map_to_list. }
    rewrite Hnil in H. by apply not_elem_of_nil in H.
  - intros Hno. destruct (named db n) as [|x r] eqn:Hf; [done|].
    apply named_cons in Hf as [? ?]. exfalso. apply Hno. by exists x.1, x.2.
Qed.

Lemma named_other_nil db n k :
  named_other db n k = [] ↔
  ¬ ∃ i T, i ≠ k ∧ teams db !! i = Some T ∧ team_name T = n.
Proof.
  split.
  - intros Hnil (i & T & Hne & HT & Hn).
    assert (H : (i, T) ∈ named_other db n k).
    { apply list_elem_of_filter. split; [done|]. by apply elem_of_map_to_list. }
    rewrite Hnil in H. by apply not_elem_of_nil in H.
  - intros Hno. destruct (named_other db n k) as [|x r] eqn:Hf; [done|].
    apply named_other_cons in Hf as (? & ? & ?).
    exfalso. apply Hno. by exists x.1, x.2.
Qed.

Lemma foldr_max_ge (l : list Z) (k : Z) : k ∈ l → (k ≤ foldr Z.max 0 l)%Z.
Proof.
  induction l as [|x l IH]; [by intros ?%not_elem_of_nil|].
  intros [->|Hin]%elem_of_cons; cbn; [lia|]. specialize (IH Hin). lia.
Qed.

(** A new key is not in use. *)
Lemma next_id_fresh {A} (m : gmap Z A) : m !! next_id m = None.
Proof.
  destruct (m !! next_id m) as [a|] eqn:Hk; [|done]. exfalso.
  assert (Hin : next_id m ∈ (map_to_list m).*1).
  { apply list_elem_of_fmap. exists (next_id m, a). split; [done|].
    by apply elem_of_map_to_list. }
  apply foldr_max_ge in Hin. unfold next_id in Hin. lia.
Qed.

(** What the commits of the team handlers bind. *)
Lemma flush_same db : forallb int64 (flush_params db db) = true.
Proof.
  apply flush_true. split.
  - intros k p. apply players_kept_in_range.
  - intros k T. apply teams_kept_in_range.
Qed.

Lemma flush_delete_team db i :
  forallb int64 (flush_params db (mkStore (players db) (delete i (teams db))))
  = true.
Proof.
  apply flush_true. split; cbn.
  - intros k p. apply players_kept_in_range.
  - intros k T Hk. apply lookup_delete_Some in Hk as [_ Hk].
    by apply teams_kept_in_range.
Qed.

Lemma flush_new_team db T :
  forallb int64 (flush_params db (created db T)) = int64 (budget T).
Proof.
  unfold created. rewrite flush_one_team, next_id_fresh. cbn.
  apply andb_true_r.
Qed.

Lemma flush_updated_team db i T td :
  teams db !! i = Some T →
  forallb int64
    (flush_params db (mkStore (players db) (<[i := updated T td]> (teams db))))
  = forallb int64 (Team_params (Some T) (updated T td)).
Proof. intros HT. by rewrite flush_one_team, HT. Qed.

Lemma initialized_lookup m range k T :
  initialized m range !! k = Some T → m !! k = Some T ∨ budget T = 200.
Proof.
  unfold initialized. revert m.
  induction range as [|i range IH]; intros m; cbn; [by left|].
  intros [H|H]%IH; [|by right].
  destruct (decide (next_id m = k)) as [<-|Hne].
  - rewrite lookup_insert_eq in H. injection H as <-. by right.
  - rewrite lookup_insert_ne in H by done. by left.
Qed.

Lemma flush_initialized db range :
  forallb int64
    (flush_params db (mkStore (players db) (initialized (teams db) range)))
  = true.
Proof.
  apply flush_true. split; cbn.
  - intros k p. apply players_kept_in_range.
  - intros k T [Hk|Hb]%initialized_lookup; [by apply teams_kept_in_range|].
    unfold Team_params, in_range.
    destruct (teams db !! k) as [o|]; [destruct (decide (budget o = budget T))|];
      rewrite ?Hb; repeat constructor.
Qed.

Lemma create_team_run db td :
  names_unique db →
  run_request (create_team td) db =
  match named db (tc_name td) with
  | [] =>
      let team := mkTeam (tc_name td) (tc_budget td) in
      if int64 (tc_budget td)
      then (Ok (Team_to_dict
                  (load_Team (created db team) (next_id (teams db), team))
                  false),
            created db team)
      else (Raise OverflowError, db)
  | _ :: _ => (Raise (HTTPException 400 "Team name already exists"), db)
  end.
Proof.
  intros Hu. unfold create_team. run_handler. fold (named db (tc_name td)).
  destruct (named_at_most_one db (tc_name td) Hu) as [->|[x ->]];
    cbn -[flush_params]; [|done].
  fold (created db (mkTeam (tc_name td) (tc_budget td))).
  rewrite flush_new_team. cbn. by destruct (int64 (tc_budget td)).
Qed.

Lemma update_team_run db i td :
  names_unique db →
  run_request (update_team i td) db =
  match teams db !! i with
  | None => (Raise (not_found i "Team not found"), db)
  | Some T =>
      match tu_name td ≫= (λ n, head (named_other db n i)) with
      | Some _ => (Raise (HTTPException 400 "Team name already exists"), db)
      | None =>
          let db' :=
            match tu_name td, tu_budget td with
            | None, None => db
            | _, _ => mkStore (players db) (<[i := updated T td]> (teams db))
            end in
          if forallb int64 (Team_params (Some T) (updated T td))
          then (Ok (Team_to_dict (load_Team db' (i, updated T td)) false), db')
          else (Raise OverflowError, db)
      end
  end.
Proof.
  intros Hu. unfold update_team, not_found. run_handler.
  destruct (teams db !! i) as [T|] eqn:HT; cbn -[flush_params];
    [|by destruct (int64 i)].
  destruct td as [[n|] [b|]]; cbn -[flush_params].
  - fold (named_other db n i).
    destruct (named_other_at_most_one db n i Hu) as [->|[x ->]];
      cbn -[flush_params]; [|done].
    rewrite insert_insert_eq.
    change (with_budget b (with_team_name n T))
      with (updated T (mkTeamUpdate (Some n) (Some b))).
    rewrite flush_updated_team by done.
    by destruct (forallb int64 _).
  - fold (named_other db n i).
    destruct (named_other_at_most_one db n i Hu) as [->|[x ->]];
      cbn -[flush_params]; [|done].
    change (with_team_name n T) with (updated T (mkTeamUpdate (Some n) None)).
    rewrite flush_updated_team by done.
    by destruct (forallb int64 _).
  - change (with_budget b T) with (updated T (mkTeamUpdate None (Some b))).
    rewrite flush_updated_team by done.
    by destruct (forallb int64 _).
  - destruct db as [ps ts]. cbn -[flush_params].
    rewrite flush_same. unfold updated. cbn. by rewrite decide_True.
Qed.

Lemma delete_team_run db i :
  run_request (delete_team i) db =
  match teams db !! i with
  | None => (Raise (not_found i "Team not found"), db)
  | Some T =>
      match players_of db i with
      | [] =>
          (Ok (VDict [("message",
                       VStr ("Team '" +:+ team_name T +:+ "' deleted"))]),
           mkStore (players db) (delete i (teams db)))
      | _ :: _ =>
          (Raise (HTTPException 400
             "Cannot delete team with drafted players. Undraft players first."),
           db)
      end
  end.
Proof.
  unfold delete_team, not_found. run_handler.
  destruct (teams db !! i) as [T|] eqn:HT; cbn -[flush_params];
    [|by destruct (int64 i)].
  destruct (players_of db i); cbn -[flush_params]; [|done].
  by rewrite flush_delete_team.
Qed.

Lemma update_in_range T n new_budget :
  (∀ b, new_budget = Some b → int64 b = true) →
  forallb int64 (Team_params (Some T) (updated T (mkTeamUpdate n new_budget)))
  = true.
Proof.
  intros Hb. unfold Team_params.
  destruct (decide _) as [|Hne]; [done|]. cbn. rewrite andb_true_r.
  destruct new_budget as [b|]; [|by destruct n]. unfold updated. cbn.
  by apply Hb.
Qed.



(** Names are compared character for character. *)
Example create_team_other_case :
  is_ok (run_request (create_team (TeamCreate_of "test team" None)) sample_db).1
    = true ∧
  (run_request (create_team (TeamCreate_of "Test Team" None)) sample_db).1
    = Raise (HTTPException 400 "Team name already exists").
Proof. split; vm_compute; reflexivity. Qed.

Lemma initialize_rows_run range acc s :
  initialize_rows range acc s
  = (Ok (acc ++ initialized_rows (teams (pending s)) range)%list,
     mkSession (committed s)
               (mkStore (players (pending s))
                        (initialized (teams (pending s)) range))).
Proof.
  revert acc s. induction range as [|i range IH]; intros acc s; cbn.
  - rewrite app_nil_r. by destruct s as [c [ps ts]].
  - run_handler. rewrite IH. cbn. by rewrite <- app_assoc.
Qed.

Lemma initialize_teams_run db :
  run_request initialize_teams db =
  match map_to_list (teams db) with
  | [] => (Ok (initialize_response db),
           mkStore (players db) (initialized (teams db) range_1_13))
  | _ :: _ =>
      (Raise (HTTPException 400 "Teams already initialized. Clear teams first."),
       db)
  end.
Proof.
  unfold initialize_teams, initialize_response. generalize range_1_13.
  intros range. run_handler.
  destruct (map_to_list (teams db)) eqn:Hl; [|done].
  rewrite initialize_rows_run. cbn -[flush_params].
  by rewrite flush_initialized.
Qed.

Example initialize_teams_empty :
  (run_request initialize_teams (mkStore {[ 1 := mahomes ]} ∅)).2
  = mkStore {[ 1 := mahomes ]}
      (list_to_map
         [(1, mkTeam "Team 1" 200); (2, mkTeam "Team 2" 200);
          (3, mkTeam "Team 3" 200); (4, mkTeam "Team 4" 200);
          (5, mkTeam "Team 5" 200); (6, mkTeam "Team 6" 200);
          (7, mkTeam "Team 7" 200); (8, mkTeam "Team 8" 200);
          (9, mkTeam "Team 9" 200); (10, mkTeam "Team 10" 200);
          (11, mkTeam "Team 11" 200); (12, mkTeam "Team 12" 200)]).
Proof. vm_compute. reflexivity. Qed.

(** ** Store-assigned keys *)

Lemma added_lookup m ps i p :
  added m ps !! i = Some p → m !! i = Some p ∨ p ∈ ps.
Proof.
  unfold added. revert m. induction ps as [|q ps IH]; intros m; cbn; [by left|].
  intros [H|H]%IH; [|by right; right].
  destruct (decide (next_id m = i)) as [<-|Hne].
  - rewrite lookup_insert_eq in H. injection H as ->. right. left.
  - rewrite lookup_insert_ne in H by done. by left.
Qed.

(** Adding players overwrites no player. *)
Lemma added_keeps m ps i p : m !! i = Some p → added m ps !! i = Some p.
Proof.
  unfold added. revert m. induction ps as [|q ps IH]; intros m Hm; cbn; [done|].
  apply IH. rewrite lookup_insert_ne; [done|].
  intros <-. by rewrite next_id_fresh in Hm.
Qed.

Lemma added_size (m : gmap Z Player) ps :
  size (added m ps) = (size m + length ps)%nat.
Proof.
  unfold added. revert m. induction ps as [|q ps IH]; intros m; cbn; [lia|].
  rewrite IH, map_size_insert_None by apply next_id_fresh. lia.
Qed.

(** ** Roster ingestion *)

Section Ingestion_facts.
Variable float_of_str : string → option float.
Variable decode_utf8 : list Byte.byte → option string.
Variable DictReader : string → Reader.

Lemma upload_rows_run rows ends n s :
  match Players_of_rows float_of_str rows with
  | Ok ps =>
      let s' := mkSession (committed s)
                          (mkStore (added (players (pending s)) ps)
                                   (teams (pending s))) in
      upload_rows float_of_str rows ends n s
      = if ends then (Raise csv_Error, s')
        else (Ok (n + Z.of_nat (length ps)), s')
  | Raise e =>
      ∃ s', upload_rows float_of_str rows ends n s = (Raise e, s')
            ∧ committed s' = committed s
  end.
Proof.
  revert n s. induction rows as [|row rows IH]; intros n s; cbn.
  - rewrite Z.add_0_r. destruct s as [c [ps ts]]. by destruct ends.
  - destruct (Player_of_row float_of_str row) as [p|e] eqn:Hrow.
    + unfold add_Player. run_handler.
      specialize (IH (n + 1) (mkSession (committed s)
         (mkStore (<[next_id (players (pending s)) := p]>
                     (players (pending s)))
                  (teams (pending s))))).
      destruct (Players_of_rows float_of_str rows) as [ps|e].
      * cbn zeta in IH. rewrite IH.
        cbn [length committed pending players teams added foldl].
        by replace (n + 1 + Z.of_nat (length ps))
          with (n + Z.of_nat (S (length ps))) by lia.
      * destruct IH as (s' & -> & Hc). by exists s'.
    + by exists s.
Qed.

Lemma Player_of_row_unassigned row p :
  Player_of_row float_of_str row = Ok p →
  fantasy_team_id p = None ∧ drafted p = false ∧
  draft_price p = None ∧ drafted_by p = None.
Proof.
  unfold Player_of_row. destruct (row_projected_points _ _); [|done].
  by intros [= <-].
Qed.

Lemma Players_of_rows_undrafted rows ps p :
  Players_of_rows float_of_str rows = Ok ps → p ∈ ps →
  fantasy_team_id p = None ∧ drafted p = false ∧
  draft_price p = None ∧ drafted_by p = None.
Proof.
  revert ps. induction rows as [|row rows IH]; intros ps; cbn.
  - intros [= <-] ?%not_elem_of_nil. done.
  - destruct (Player_of_row float_of_str row) as [q|] eqn:Hq; [|done].
    destruct (Players_of_rows float_of_str rows) as [qs|]; [|done].
    intros [= <-] [->|Hin]%elem_of_cons.
    + by apply Player_of_row_unassigned in Hq.
    + by eapply IH.
Qed.

Lemma Players_of_rows_unassigned rows ps p :
  Players_of_rows float_of_str rows = Ok ps → p ∈ ps →
  fantasy_team_id p = None.
Proof. intros Hps Hp. by destruct (Players_of_rows_undrafted _ _ _ Hps Hp). Qed.

Lemma Players_of_rows_length rows ps :
  Players_of_rows float_of_str rows = Ok ps → length ps = length rows.
Proof.
  revert ps. induction rows as [|row rows IH]; intros ps; cbn.
  - by intros [= <-].
  - destruct (Player_of_row float_of_str row); [|done].
    destruct (Players_of_rows float_of_str rows) as [qs|]; [|done].
    intros [= <-]. cbn. by rewrite (IH qs).
Qed.

(** The players of an upload have no price and no team: their rows
    bind no integer. *)
Lemma flush_added db rows ps :
  Players_of_rows float_of_str rows = Ok ps →
  forallb int64 (flush_params db (mkStore (added (players db) ps) (teams db)))
  = true.
Proof.
  intros Hps. apply flush_true. split; cbn.
  - intros k p [Hk|Hp]%added_lookup; [by apply players_kept_in_range|].
    destruct (Players_of_rows_undrafted _ _ _ Hps Hp) as (Ht & _ & Hd & _).
    unfold Player_params. rewrite Ht, Hd.
    destruct (players db !! k); rewrite ?bound_None; constructor.
  - intros k T. apply teams_kept_in_range.
Qed.

(** An upload is all or nothing: every row becomes a player and the
    players are committed together, or an error comes out and the
    store is as it was: the decoder's, the first failing row's, or the
    reader's. *)
Lemma upload_players_run filename contents db :
  run_request
    (upload_players float_of_str decode_utf8 DictReader filename contents) db =
  if negb (endswith filename ".csv")
  then (Raise (HTTPException 400 "Only CSV files are supported"), db)
  else
    match decode_utf8 contents with
    | None => (Raise UnicodeDecodeError, db)
    | Some csv_text =>
        match Players_of_rows float_of_str (yields (DictReader csv_text)) with
        | Ok ps =>
            if ends_in_error (DictReader csv_text)
            then (Raise csv_Error, db)
            else
              (Ok (VDict [("message",
                           VStr ("Successfully uploaded "
                                 +:+ pretty (Z.of_nat (length ps))
                                 +:+ " players"))]),
               mkStore (added (players db) ps) (teams db))
        | Raise e => (Raise e, db)
        end
    end.
Proof.
  unfold upload_players, run_request.
  destruct (negb (endswith filename ".csv")); [done|].
  destruct (decode_utf8 contents) as [csv_text|]; [|done]. cbn zeta.
  unfold mbind, M_bind.
  pose proof (upload_rows_run (yields (DictReader csv_text))
                (ends_in_error (DictReader csv_text)) 0 (mkSession db db))
    as H.
  destruct (Players_of_rows float_of_str (yields (DictReader csv_text)))
    as [ps|e] eqn:Hps.
  - cbn zeta in H. rewrite H.
    destruct (ends_in_error (DictReader csv_text)); [done|].
    unfold commit. cbn -[flush_params].
    by rewrite (flush_added db _ ps Hps).
  - destruct H as (s' & -> & Hc). by rewrite Hc.
Qed.

(** A successful upload keeps the players there were and stores one
    new player per row. *)
Lemma upload_players_count filename contents db r db' :
  run_request
    (upload_players float_of_str decode_utf8 DictReader filename contents) db
  = (Ok r, db') →
  ∃ csv_text,
    decode_utf8 contents = Some csv_text ∧
    size (players db')
    = (size (players db) + length (yields (DictReader csv_text)))%nat ∧
    ∀ i p, players db !! i = Some p → players db' !! i = Some p.
Proof.
  rewrite upload_players_run. destruct (negb _); [done|].
  destruct (decode_utf8 contents) as [csv_text|]; [|done].
  destruct (Players_of_rows float_of_str _) as [ps|] eqn:Hps; [|done].
  destruct (ends_in_error _); [done|].
  intros [= _ <-]. exists csv_text. split; [done|]. cbn. split.
  - by rewrite added_size, (Players_of_rows_length _ ps Hps).
  - intros i p. apply added_keeps.
Qed.






(** No non-empty cell under either name: the projected points are
    null. *)
Lemma row_projected_points_null row :
  truthy (get row "projected_points" None) = false →
  truthy (get row "Projected Points" None) = false →
  row_projected_points float_of_str row = Ok None.
Proof. intros H1 H2. unfold row_projected_points. by rewrite H1, H2. Qed.


(** C7, where the code departs from it. A row whose lower-snake
    projected-points cell is empty and whose title-case cell is not
    has a non-empty value under one of the two names, yet no float is
    parsed from it: [float] is applied to the empty lower-snake cell
    and raises [ValueError], and the upload of a file whose first row
    it is raises and stores nothing. *)
Theorem projected_points_empty_snake_cell (row : Row) (v : string) :
  float_of_str "" = None →
  row !! "projected_points" = Some (Some "") →
  row !! "Projected Points" = Some (Some v) →
  v ≠ "" →
  Player_of_row float_of_str row = Raise ValueError ∧
  ∀ contents csv_text db,
    decode_utf8 contents = Some csv_text →
    head (yields (DictReader csv_text)) = Some row →
    run_request
      (upload_players float_of_str decode_utf8 DictReader
         "players.csv" contents) db
    = (Raise ValueError, db).
Proof.
  intros Hempty Hs Ht Hv.
  assert (Hrow : Player_of_row float_of_str row = Raise ValueError).
  { unfold Player_of_row, row_projected_points, get. rewrite Hs, Ht. cbn.
    rewrite Hempty. by destruct (String.eqb_spec v ""). }
  split; [done|]. intros contents csv_text db Hdec Hhead.
  rewrite upload_players_run, Hdec.
  destruct (yields (DictReader csv_text)) as [|row' rest]; [done|].
  injection Hhead as ->. cbn. by rewrite Hrow.
Qed.

(** The same with a short line, whose missing lower-snake cell is
    [None]: [float(None)] is a [TypeError], whatever [float] reads. *)
Lemma projected_points_missing_snake_cell (row : Row) (v : string) :
  row !! "projected_points" = Some None →
  row !! "Projected Points" = Some (Some v) →
  v ≠ "" →
  Player_of_row float_of_str row = Raise TypeError.
Proof.
  intros Hs Ht Hv.
  unfold Player_of_row, row_projected_points, get. rewrite Hs, Ht. cbn.
  by destruct (String.eqb_spec v "").
Qed.

End Ingestion_facts.


Example upload_two_players :
  (run_request
     (upload_players decimal_float utf8 plain_csv "players.csv"
        (list_byte_of_string "name,position,team,projected_points
Josh Allen,QB,BUF,340.5
Travis Kelce,TE,KC,220.0
"))
     (mkStore ∅ ∅))
  = (Ok (VDict [("message", VStr "Successfully uploaded 2 players")]),
     mkStore
       (<[1 := mkPlayer (Some "Josh Allen") (Some "QB") (Some "BUF")
                        (Some 340.5%float) false None None None]>
          {[ 2 := mkPlayer (Some "Travis Kelce") (Some "TE") (Some "KC")
                           (Some 220.0%float) false None None None ]})
       ∅).
Proof. vm_compute. reflexivity. Qed.

(** The sample files, read. *)
Lemma both_columns_csv_rows :
  utf8 both_columns_csv ≫= (λ t, Some (plain_csv t))
  = Some (mkReader [both_columns_row] false).
Proof. vm_compute. reflexivity. Qed.

Lemma burrow_csv_rows :
  utf8 burrow_csv ≫= (λ t, Some (plain_csv t))
  = Some (mkReader [burrow_row] false).
Proof. vm_compute. reflexivity. Qed.

Lemma latin1_csv_not_utf8 : utf8 latin1_csv = None.
Proof. vm_compute. reflexivity. Qed.

(** ** The unique constraint on team names *)

Lemma NoDup_fmap_eq {A B} (f : A → B) (l : list A) x y :
  NoDup (f <$> l) → x ∈ l → y ∈ l → f x = f y → x = y.
Proof.
  induction l as [|a l IH]; [by intros _ ?%not_elem_of_nil|].
  rewrite fmap_cons, NoDup_cons. intros [Ha Hnd] Hx Hy Hf.
  apply elem_of_cons in Hx as [->|Hx]; apply elem_of_cons in Hy as [->|Hy].
  - done.
  - exfalso. apply Ha. rewrite Hf. by apply list_elem_of_fmap_2.
  - exfalso. apply Ha. rewrite <- Hf. by apply list_elem_of_fmap_2.
  - by apply IH.
Qed.

Lemma names_unique_NoDup db :
  NoDup ((λ t : Z * Team, team_name t.2) <$> map_to_list (teams db)) →
  names_unique db.
Proof.
  intros Hnd i j ti tj Hi Hj Hn.
  apply elem_of_map_to_list in Hi, Hj.
  pose proof (NoDup_fmap_eq _ _ (i, ti) (j, tj) Hnd Hi Hj Hn) as H.
  congruence.
Qed.

Lemma names_unique_initialized ps :
  names_unique (mkStore ps (initialized ∅ range_1_13)).
Proof.
  apply names_unique_NoDup. cbn [teams].
  apply (bool_decide_unpack _). vm_compute. exact I.
Qed.

Lemma names_unique_delete db i :
  names_unique db → names_unique (mkStore (players db) (delete i (teams db))).
Proof.
  intros Hu j k tj tk Hj Hk. cbn in *.
  apply lookup_delete_Some in Hj as [_ Hj].
  apply lookup_delete_Some in Hk as [_ Hk].
  by eapply Hu.
Qed.

Lemma names_unique_insert db i T :
  names_unique db →
  (∀ j T', j ≠ i → teams db !! j = Some T' → team_name T' ≠ team_name T) →
  names_unique (mkStore (players db) (<[i := T]> (teams db))).
Proof.
  intros Hu Hfree j k tj tk Hj Hk Hn. cbn in *.
  destruct (decide (j = i)) as [->|Hji];
    destruct (decide (k = i)) as [->|Hki]; [done|..].
  - rewrite lookup_insert_eq in Hj. rewrite lookup_insert_ne in Hk by done.
    injection Hj as <-. exfalso. by eapply Hfree.
  - rewrite lookup_insert_eq in Hk. rewrite lookup_insert_ne in Hj by done.
    injection Hk as <-. exfalso. by eapply Hfree.
  - rewrite lookup_insert_ne in Hj, Hk by done. by eapply Hu.
Qed.

(** X22. Every request keeps the team names unique: the constraint the
    [teams.name] column declares is never put to the test. *)
Lemma handle_names_unique (float_of_str : string → option float)
    (decode_utf8 : list Byte.byte → option string)
    (DictReader : string → Reader) (req : request) (db : Store) :
  names_unique db →
  names_unique
    (run_request (handle float_of_str decode_utf8 DictReader req) db).2.
Proof.
  intros Hu.
  destruct req as [ | | filename contents | pid price label tid | | | tid | td
                 | | tid td | tid | ]; cbn [handle].
  - done.
  - done.
  - rewrite upload_players_run. destruct (negb _); [done|].
    destruct (decode_utf8 contents) as [csv_text|]; [|done].
    destruct (Players_of_rows float_of_str _); [|done].
    by destruct (ends_in_error _).
  - rewrite draft_player_run. destruct (players db !! pid); [|done].
    destruct (missing_team db tid); [done|]. by destruct (forallb _ _).
  - by rewrite clear_players_run.
  - done.
  - rewrite get_team_run. by destruct (teams db !! tid).
  - rewrite create_team_run by done.
    destruct (named db (tc_name td)) eqn:Hn; [|done].
    cbn zeta. destruct (int64 _); [|done].
    apply names_unique_insert; [done|]. cbn. intros j T' _ HT' Hname.
    apply named_nil in Hn. apply Hn. by exists j, T'.
  - rewrite initialize_teams_run.
    destruct (map_to_list (teams db)) eqn:Hl; [|done].
    apply map_to_list_empty_iff in Hl. rewrite Hl.
    apply names_unique_initialized.
  - rewrite update_team_run by done.
    destruct (teams db !! tid) as [T|] eqn:HT; [|done].
    destruct td as [[n|] [b|]]; cbn -[Team_params].
    + destruct (named_other db n tid) eqn:Hn; [|done]. cbn -[Team_params].
      destruct (forallb _ _); [|done].
      apply names_unique_insert; [done|]. cbn. intros j T' Hne HT' Hname.
      apply named_other_nil in Hn. apply Hn. by exists j, T'.
    + destruct (named_other db n tid) eqn:Hn; [|done]. cbn -[Team_params].
      destruct (forallb _ _); [|done].
      apply names_unique_insert; [done|]. cbn. intros j T' Hne HT' Hname.
      apply named_other_nil in Hn. apply Hn. by exists j, T'.
    + destruct (forallb _ _); [|done].
      apply names_unique_insert; [done|]. cbn. intros j T' Hne HT' Hname.
      apply Hne. by eapply Hu.
    + by destruct (forallb _ _).
  - rewrite delete_team_run. destruct (teams db !! tid); [|done].
    destruct (players_of db tid); [|done]. by apply names_unique_delete.
  - rewrite clear_teams_run. intros i j ti tj Hi. cbn in Hi.
    by rewrite lookup_empty in Hi.
Qed.

(** ** Referential integrity *)

Lemma refs_ok_teams_grow db db' :
  refs_ok db → players db' = players db →
  (∀ t, is_Some (teams db !! t) → is_Some (teams db' !! t)) →
  refs_ok db'.
Proof.
  intros Hok Hp Ht i p t Hi Hteam. rewrite Hp in Hi. apply Ht. by eapply Hok.
Qed.

Lemma initialized_keeps m range t :
  is_Some (m !! t) → is_Some (initialized m range !! t).
Proof.
  unfold initialized. revert m.
  induction range as [|i range IH]; intros m Hm; cbn; [done|].
  apply IH. rewrite lookup_insert_is_Some.
  destruct (decide (next_id m = t)); auto.
Qed.

(** Whatever the team names in the store, creating a team leaves the
    store alone or adds the team. *)
Lemma create_team_store db td :
  (run_request (create_team td) db).2 = db ∨
  (run_request (create_team td) db).2
    = created db (mkTeam (tc_name td) (tc_budget td)).
Proof.
  unfold create_team. run_handler.
  destruct (filter _ _) as [|x [|y l]]; cbn -[flush_params]; auto.
  destruct (forallb _ _); cbn; auto.
Qed.

Lemma update_team_store db i td :
  (run_request (update_team i td) db).2 = db ∨
  ∃ T T', teams db !! i = Some T ∧
    (run_request (update_team i td) db).2
      = mkStore (players db) (<[i := T']> (teams db)).
Proof.
  unfold update_team. run_handler.
  destruct (teams db !! i) as [T|] eqn:HT; cbn -[flush_params];
    [|left; by destruct (int64 i)].
  destruct td as [[n|] [b|]]; cbn -[flush_params].
  - destruct (filter _ _) as [|x [|y l]]; cbn -[flush_params]; [|by left..].
    destruct (forallb _ _); cbn; [|by left].
    right. eexists T, _. split; [done|]. by rewrite insert_insert_eq.
  - destruct (filter _ _) as [|x [|y l]]; cbn -[flush_params]; [|by left..].
    destruct (forallb _ _); cbn; [|by left].
    right. by eexists T, _.
  - destruct (forallb _ _); cbn; [|by left].
    right. by eexists T, _.
  - left. destruct (forallb _ _); cbn; [|done]. by destruct db.
Qed.

Lemma players_of_nil db t i p :
  players_of db t = [] → players db !! i = Some p →
  fantasy_team_id p ≠ Some t.
Proof.
  intros Hnil Hp Ht.
  assert (H : (i, p) ∈ players_of db t).
  { apply list_elem_of_filter. split; [done|]. by apply elem_of_map_to_list. }
  rewrite Hnil in H. by apply not_elem_of_nil in H.
Qed.

(** A team some player is on is not deleted. *)
Lemma delete_team_refused db t i p :
  players db !! i = Some p → fantasy_team_id p = Some t →
  is_ok (run_request (delete_team t) db).1 = false ∧
  (run_request (delete_team t) db).2 = db.
Proof.
  intros Hp Ht. rewrite delete_team_run.
  destruct (teams db !! t); [|done].
  destruct (players_of db t) eqn:Hl; [|done].
  by destruct (players_of_nil db t i p).
Qed.

Lemma handle_refs_ok (float_of_str : string → option float)
    (decode_utf8 : list Byte.byte → option string)
    (DictReader : string → Reader) (req : request) (db : Store) :
  refs_ok db →
  refs_ok (run_request (handle float_of_str decode_utf8 DictReader req) db).2.
Proof.
  intros Hok.
  destruct req as [ | | filename contents | pid price label tid | | | tid | td
                 | | tid td | tid | ]; cbn [handle].
  - done.
  - done.
  - rewrite upload_players_run.
    destruct (negb _); [done|].
    destruct (decode_utf8 contents) as [csv_text|]; [|done].
    destruct (Players_of_rows float_of_str _) as [ps|e] eqn:Hps; [|done].
    destruct (ends_in_error _); [done|].
    cbn. intros i p t Hi Ht. cbn in *.
    apply added_lookup in Hi as [Hi|Hi]; [by eapply Hok|].
    eapply Players_of_rows_unassigned in Hi; [|done]. congruence.
  - rewrite draft_player_run.
    destruct (players db !! pid) as [p|] eqn:Hp; [|done].
    destruct (missing_team db tid) eqn:Hm; [done|].
    destruct (forallb _ _); [|done].
    cbn. intros i q t Hi Ht. cbn in *.
    destruct (decide (pid = i)) as [<-|Hne].
    + rewrite lookup_insert_eq in Hi. injection Hi as <-. cbn in Ht.
      destruct tid as [t'|].
      * injection Ht as <-. eapply missing_team_None in Hm; eauto.
      * by eapply Hok.
    + rewrite lookup_insert_ne in Hi by done. by eapply Hok.
  - rewrite clear_players_run. intros i p t Hi. cbn in Hi.
    by rewrite lookup_empty in Hi.
  - done.
  - rewrite get_team_run. by destruct (teams db !! tid).
  - destruct (create_team_store db td) as [->| ->]; [done|].
    eapply refs_ok_teams_grow; [done..|]. cbn. intros t Ht.
    rewrite lookup_insert_is_Some.
    destruct (decide (next_id (teams db) = t)); auto.
  - rewrite initialize_teams_run. destruct (map_to_list (teams db)); [|done].
    eapply refs_ok_teams_grow; [done..|]. intros t. apply initialized_keeps.
  - destruct (update_team_store db tid td) as [->|(T & T' & HT & ->)]; [done|].
    eapply refs_ok_teams_grow; [done..|]. cbn. intros t Ht.
    rewrite lookup_insert_is_Some. destruct (decide (tid = t)); auto.
  - rewrite delete_team_run. destruct (teams db !! tid) as [T|]; [|done].
    destruct (players_of db tid) eqn:Hl; [|done].
    cbn. intros i p t Hi Ht. cbn in *.
    assert (t ≠ tid) by (intros ->; by eapply players_of_nil).
    rewrite lookup_delete_ne by done. by eapply Hok.
  - rewrite clear_teams_run. intros i p t Hi Ht. cbn in *.
    rewrite lookup_fmap in Hi. destruct (players db !! i); [|done].
    cbn in Hi. by injection Hi as <-.
Qed.

(** C3. Every request preserves referential integrity: if every set
    [fantasy_team_id] names a team before the request, so it does after
    it, whatever the request and whether it succeeds or raises.  The
    three guards behind it: a draft onto a team that does not exist
    raises and changes nothing; deleting a team some player is on raises
    and changes nothing; clearing the teams leaves no player with a
    team. *)
Theorem referential_integrity (float_of_str : string → option float)
    (decode_utf8 : list Byte.byte → option string)
    (DictReader : string → Reader) (db : Store) :
  refs_ok db →
  (∀ req : request,
     refs_ok
       (run_request (handle float_of_str decode_utf8 DictReader req) db).2) ∧
  (∀ pid price label t,
     teams db !! t = None →
     is_ok (run_request (draft_player pid price label (Some t)) db).1 = false ∧
     (run_request (draft_player pid price label (Some t)) db).2 = db) ∧
  (∀ t i p,
     players db !! i = Some p → fantasy_team_id p = Some t →
     is_ok (run_request (delete_team t) db).1 = false ∧
     (run_request (delete_team t) db).2 = db) ∧
  (∀ i p,
     players (run_request clear_teams db).2 !! i = Some p →
     fantasy_team_id p = None).
Proof.
  intros Hok. split; [intros req; by apply handle_refs_ok|].
  split; [|split].
  - intros pid price label t Ht. rewrite draft_player_run.
    destruct (players db !! pid); [|done]. cbn. by rewrite Ht.
  - apply delete_team_refused.
  - intros i p. rewrite clear_teams_run. cbn. rewrite lookup_fmap.
    destruct (players db !! i); [|done]. cbn. by intros [= <-].
Qed.

(** ** Instances on the sample data *)



Lemma league_db_refs_ok : refs_ok league_db.
Proof.
  intros i p t Hi Ht. unfold league_db in *. cbn in *.
  apply lookup_singleton_Some in Hi as [_ <-]. injection Ht as <-.
  eexists. vm_compute. reflexivity.
Qed.

Lemma draft_player_succeeds_witness :
  ∃ p' : Player,
    run_request (draft_player 1 50 "Team A" (Some 1)) sample_db
      = (Ok (Player_to_dict (1, p')),
         mkStore (<[1 := p']> (players sample_db)) (teams sample_db)) ∧
    drafted p' = true ∧
    draft_price p' = Some 50 ∧
    drafted_by p' = Some "Team A" ∧
    fantasy_team_id p' = Some 1 ∧
    name p' = name mahomes ∧ position p' = position mahomes ∧
    team p' = team mahomes ∧
    projected_points p' = projected_points mahomes.
Proof.
  apply (draft_player_succeeds sample_db 1 mahomes 50 "Team A" (Some 1)).
  - reflexivity.
  - intros t [= <-]. split; [exists test_team|]; reflexivity.
  - reflexivity.
Defined.

Lemma draft_player_not_found_witness :
  (run_request (draft_player 9999 50 "Team A" None) sample_db).1
    = Raise (HTTPException 404 "Player not found") ∧
  (run_request (draft_player 1 50 "Team A" (Some 9999)) sample_db).1
    = Raise (HTTPException 404 "Team not found") ∧
  (run_request (draft_player 1 50 "Team A" (Some 9999)) sample_db).2
    = sample_db.
Proof.
  pose proof (draft_player_not_found sample_db 9999 50 "Team A" None) as H1.
  pose proof (draft_player_not_found sample_db 1 50 "Team A" (Some 9999))
    as H2.
  cbn zeta in H1, H2.
  destruct H1 as [_ H1]. destruct H2 as [Hsame H2].
  destruct H1 as (_ & Hplayer & _); [reflexivity|reflexivity|done|].
  destruct H2 as (Hfail & _ & Hteam & _);
    [reflexivity|reflexivity|by intros t [= <-]|].
  split; [apply Hplayer; reflexivity|].
  split.
  - apply Hteam. split; [exists mahomes; reflexivity|].
    exists 9999. split; reflexivity.
  - apply Hsame. apply Hfail. right. exists 9999. split; reflexivity.
Defined.

Lemma draft_player_twice_witness :
  ∃ p1 p2 db1 db2,
    run_request (draft_player 7 50 "Team Two" (Some 2)) league_db
      = (Ok (Player_to_dict (7, p1)), db1) ∧
    players db1 !! 7 = Some p1 ∧ drafted p1 = true ∧
    run_request (draft_player 7 75 "Champions" (Some 1)) db1
      = (Ok (Player_to_dict (7, p2)), db2) ∧
    players db2 !! 7 = Some p2 ∧
    drafted p2 = true ∧
    draft_price p2 = Some 75 ∧
    drafted_by p2 = Some "Champions" ∧
    fantasy_team_id p2 = Some 1.
Proof.
  apply (draft_player_twice league_db 7 kelce 50 75 "Team Two" "Champions"
           2 1).
  - reflexivity.
  - exists (mkTeam "Team Two" 200). reflexivity.
  - exists (mkTeam "Team One" 200). reflexivity.
  - reflexivity.
  - reflexivity.
  - reflexivity.
  - reflexivity.
Defined.

Lemma referential_integrity_witness :
  refs_ok (run_request (handle decimal_float utf8 plain_csv
                          (PATCH_player_draft 7 60 "Team Two" (Some 2)))
                       league_db).2 ∧
  (is_ok (run_request (draft_player 7 60 "Team Two" (Some 3)) league_db).1
     = false ∧
   (run_request (draft_player 7 60 "Team Two" (Some 3)) league_db).2
     = league_db) ∧
  (is_ok (run_request (delete_team 1) league_db).1 = false ∧
   (run_request (delete_team 1) league_db).2 = league_db) ∧
  (∃ p, players (run_request clear_teams league_db).2 !! 7 = Some p ∧
        fantasy_team_id p = None).
Proof.
  destruct (referential_integrity decimal_float utf8 plain_csv league_db
              league_db_refs_ok) as (Hreq & Hdraft & Hdelete & Hclear).
  split; [apply Hreq|].
  split; [apply Hdraft; reflexivity|].
  split; [apply (Hdelete 1 7 kelce); reflexivity|].
  eexists. split; [reflexivity|].
  apply (Hclear 7). reflexivity.
Defined.


Lemma clear_teams_unassigns_witness :
  ∃ p', players (run_request clear_teams budget_db).2 !! 1 = Some p' ∧
        fantasy_team_id p' = None ∧ draft_price p' = Some 50.
Proof.
  destruct (clear_teams_unassigns budget_db) as (db' & Hrun & _ & _ & H).
  rewrite Hrun. cbn [snd].
  destruct (H 1 (mkPlayer (Some "Player 1") (Some "QB") (Some "TST") None
                          false (Some 50) None (Some 1)))
    as (p' & Hp' & Hteam & _ & _ & _ & _ & _ & Hprice & _).
  - vm_compute. reflexivity.
  - exists p'. split; [exact Hp'|]. split; [exact Hteam|exact Hprice].
Defined.

Lemma clear_players_frame_witness :
  ∃ db' d,
    run_request clear_players budget_db
      = (Ok (VDict [("message", VStr "All players cleared")]), db') ∧
    run_request (get_team 1) db' = (Ok d, db') ∧
    item "spent" d = Some (VInt 0) ∧
    item "remaining_budget" d = Some (VInt 200).
Proof.
  destruct (clear_players_frame budget_db) as (db' & Hrun & _ & _ & H).
  destruct (H 1 (mkTeam "Budget Test Team" 200))
    as (d & Hd & _ & _ & _ & Hspent & Hrem & _).
  - vm_compute. reflexivity.
  - exists db', d. repeat split; assumption.
Defined.


Lemma projected_points_empty_snake_cell_witness :
  decimal_float "12.5" = Some 12.5%float ∧
  Player_of_row decimal_float both_columns_row = Raise ValueError ∧
  run_request
    (upload_players decimal_float utf8 plain_csv "players.csv"
       both_columns_csv) sample_db
  = (Raise ValueError, sample_db).
Proof.
  split; [vm_compute; reflexivity|].
  destruct (projected_points_empty_snake_cell decimal_float utf8 plain_csv
              both_columns_row "12.5")
    as [H1 H2]; [vm_compute; reflexivity..|discriminate|].
  split; [exact H1|].
  apply (H2 both_columns_csv
            (string_of_list_byte both_columns_csv) sample_db);
    vm_compute; reflexivity.
Defined.

(** * Further properties of the handlers *)

(** ** Failure changes nothing; reads change nothing *)

Lemma create_team_failed db td :
  is_ok (run_request (create_team td) db).1 = false →
  (run_request (create_team td) db).2 = db.
Proof.
  unfold create_team. run_handler.
  destruct (filter _ _) as [|x [|y l]]; cbn -[flush_params]; try done.
  by destruct (forallb _ _).
Qed.

Lemma update_team_failed db i td :
  is_ok (run_request (update_team i td) db).1 = false →
  (run_request (update_team i td) db).2 = db.
Proof.
  unfold update_team. run_handler.
  destruct (teams db !! i) as [T|] eqn:HT; cbn -[flush_params];
    [|by destruct (int64 i)].
  destruct td as [[n|] [b|]]; cbn -[flush_params];
    try (destruct (filter _ _) as [|x [|y l]]; cbn -[flush_params];
         try done);
    by destruct (forallb _ _).
Qed.

(** X1. Every request is atomic: whichever endpoint is called and
    whatever it raises, a request that raises leaves the store exactly
    as it was, because every raise in a handler comes before its
    commit. *)
Theorem handle_atomic (float_of_str : string → option float)
    (decode_utf8 : list Byte.byte → option string)
    (DictReader : string → Reader) (req : request) (db : Store) :
  is_ok (run_request (handle float_of_str decode_utf8 DictReader req) db).1
    = false →
  (run_request (handle float_of_str decode_utf8 DictReader req) db).2 = db.
Proof.
  destruct req as [ | | filename contents | pid price label tid | | | tid | td
                 | | tid td | tid | ]; cbn [handle].
  - done.
  - done.
  - rewrite upload_players_run. destruct (negb _); [done|].
    destruct (decode_utf8 contents) as [csv_text|]; [|done].
    destruct (Players_of_rows float_of_str _); [|done].
    by destruct (ends_in_error _).
  - rewrite draft_player_run. destruct (players db !! pid); [|done].
    destruct (missing_team db tid); [done|]. by destruct (forallb _ _).
  - by rewrite clear_players_run.
  - done.
  - rewrite get_team_run. by destruct (teams db !! tid).
  - apply create_team_failed.
  - rewrite initialize_teams_run. by destruct (map_to_list (teams db)).
  - apply update_team_failed.
  - rewrite delete_team_run. destruct (teams db !! tid); [|done].
    by destruct (players_of db tid).
  - by rewrite clear_teams_run.
Qed.

(** Two players with the same projection are the same player. *)
Lemma Player_to_dict_eq (a b : Z * Player) :
  Player_to_dict a = Player_to_dict b → a = b.
Proof.
  destruct a as [i [n1 p1 t1 pp1 d1 dp1 db1 f1]],
           b as [j [n2 p2 t2 pp2 d2 dp2 db2 f2]].
  unfold Player_to_dict. cbn. intros H.
  injection H as Hi Hn Hp Ht Hpp Hd Hdp Hdb Hf. subst.
  assert (∀ {A} (inj : A → value) (x y : option A),
            (∀ a, inj a ≠ VNone) → (∀ a b, inj a = inj b → a = b) →
            opt inj x = opt inj y → x = y) as Hopt.
  { intros A inj [x|] [y|] Hne Hinj; cbn; intros Heq; try done.
    - f_equal. by apply Hinj.
    - by apply Hne in Heq.
    - symmetry in Heq. by apply Hne in Heq. }
  apply Hopt in Hn; [|done|by intros ?? [=]].
  apply Hopt in Hp; [|done|by intros ?? [=]].
  apply Hopt in Ht; [|done|by intros ?? [=]].
  apply Hopt in Hpp; [|done|by intros ?? [=]].
  apply Hopt in Hdp; [|done|by intros ?? [=]].
  apply Hopt in Hdb; [|done|by intros ?? [=]].
  apply Hopt in Hf; [|done|by intros ?? [=]].
  by subst.
Qed.

(** X2. Listing the players always succeeds and changes nothing; the
    list has one projection per stored player, without repetition, and
    a projection is in the list exactly when that player, under that
    id and with those column values, is in the store: [Player.to_dict]
    loses nothing. *)
Theorem get_players_lists_store (db : Store) :
  ∃ l, run_request get_players db = (Ok (VList l), db) ∧
       length l = size (players db) ∧
       NoDup l ∧
       ∀ i p, Player_to_dict (i, p) ∈ l ↔ players db !! i = Some p.
Proof.
  eexists. split; [reflexivity|]. split; [|split].
  - by rewrite length_fmap, length_map_to_list.
  - apply NoDup_fmap_2; [intros a b; apply Player_to_dict_eq
                        |apply NoDup_map_to_list].
  - intros i p. rewrite list_elem_of_fmap. split.
    + intros ([j q] & Heq%Player_to_dict_eq & Hin). injection Heq as -> ->.
      by apply elem_of_map_to_list.
    + intros H. exists (i, p). split; [done|]. by apply elem_of_map_to_list.
Qed.

(** ** The players of a team *)

Lemma elem_of_players_of db t i p :
  (i, p) ∈ players_of db t ↔
  players db !! i = Some p ∧ fantasy_team_id p = Some t.
Proof.
  unfold players_of. rewrite list_elem_of_filter, elem_of_map_to_list. cbn.
  tauto.
Qed.

Lemma players_of_nil_iff db t :
  players_of db t = [] ↔
  ∀ i p, players db !! i = Some p → fantasy_team_id p ≠ Some t.
Proof.
  split.
  - intros Hnil i p. by apply players_of_nil.
  - intros H. destruct (players_of db t) as [|[i p] l] eqn:Hl; [done|].
    assert (Hin : (i, p) ∈ players_of db t) by (rewrite Hl; left).
    apply elem_of_players_of in Hin as [Hp Ht]. by destruct (H i p).
Qed.

(** X3. Reading one team changes nothing.  When the id names no team,
    it raises the 404 if the id is in the signed 64-bit range and
    [OverflowError] if it is not; when the id names a team, it
    succeeds, and the [players] entry lists, once each, exactly the
    players whose [fantasy_team_id] is that id. *)
Theorem get_team_outcomes (db : Store) (t : Z) :
  (teams db !! t = None → int64 t = true →
     run_request (get_team t) db
     = (Raise (HTTPException 404 "Team not found"), db)) ∧
  (teams db !! t = None → int64 t = false →
     run_request (get_team t) db = (Raise OverflowError, db)) ∧
  (∀ T, teams db !! t = Some T →
     ∃ d, run_request (get_team t) db = (Ok d, db) ∧
          item "id" d = Some (VInt t) ∧
          item "players" d
            = Some (VList (Player_to_dict <$> players_of db t)) ∧
          NoDup (players_of db t) ∧
          ∀ i p, (i, p) ∈ players_of db t ↔
                 players db !! i = Some p ∧ fantasy_team_id p = Some t).
Proof.
  split; [|split].
  - intros HT Ht. rewrite get_team_run, HT. unfold not_found. by rewrite Ht.
  - intros HT Ht. rewrite get_team_run, HT. unfold not_found. by rewrite Ht.
  - intros T HT. eexists. rewrite get_team_run, HT. split; [reflexivity|].
    split; [done|]. split; [done|]. split.
    + apply NoDup_filter, NoDup_map_to_list.
    + apply elem_of_players_of.
Qed.

(** X4. Listing the teams always succeeds and changes nothing; the
    list has one entry per team, and every entry is the detailed
    projection of a stored team: its id, the sum of its players' draft
    prices as spent, budget minus that sum as remaining budget, and
    its players. *)
Theorem get_teams_lists_store (db : Store) :
  ∃ l, run_request get_teams db = (Ok (VList l), db) ∧
       length l = size (teams db) ∧
       (∀ t T, teams db !! t = Some T →
               Team_to_dict (load_Team db (t, T)) true ∈ l) ∧
       (∀ d, d ∈ l → ∃ t T, teams db !! t = Some T ∧
               d = Team_to_dict (load_Team db (t, T)) true ∧
               item "id" d = Some (VInt t) ∧
               item "spent" d = Some (VInt (spent_spec (players_of db t))) ∧
               item "remaining_budget" d
                 = Some (VInt (budget T - spent_spec (players_of db t))) ∧
               item "players" d
                 = Some (VList (Player_to_dict <$> players_of db t))).
Proof.
  eexists. split; [reflexivity|]. split; [|split].
  - by rewrite length_fmap, length_map_to_list.
  - intros t T HT. apply list_elem_of_fmap. exists (t, T).
    split; [done|]. by apply elem_of_map_to_list.
  - intros d ([t T] & -> & Hin)%list_elem_of_fmap.
    apply elem_of_map_to_list in Hin. exists t, T.
    split; [done|]. split; [done|].
    destruct (Team_to_dict_spent (load_Team db (t, T)) (players_of db t) true
                eq_refl) as [Hs Hr].
    by repeat split.
Qed.

(** ** Deleting, initializing, creating and updating teams *)

(** X5. Deleting a team has four outcomes and no other: the 404 when
    the id names no team and is in the signed 64-bit range;
    [OverflowError] when it names no team and is outside that range;
    the 400 when the team exists and some player is on it; success
    when the team exists and no player is on it.  Success removes that
    team and nothing else; a failure changes nothing. *)
Theorem delete_team_outcomes (db : Store) (t : Z) :
  let r := run_request (delete_team t) db in
  (r.1 = Raise (HTTPException 404 "Team not found") ↔
     teams db !! t = None ∧ int64 t = true) ∧
  (r.1 = Raise OverflowError ↔ teams db !! t = None ∧ int64 t = false) ∧
  (r.1 = Raise (HTTPException 400
           "Cannot delete team with drafted players. Undraft players first.") ↔
     is_Some (teams db !! t) ∧
     ∃ i p, players db !! i = Some p ∧ fantasy_team_id p = Some t) ∧
  (is_ok r.1 = true ↔
     is_Some (teams db !! t) ∧
     ∀ i p, players db !! i = Some p → fantasy_team_id p ≠ Some t) ∧
  (is_ok r.1 = true →
     r.2 = mkStore (players db) (delete t (teams db))) ∧
  (is_ok r.1 = false → r.2 = db).
Proof.
  cbn zeta. rewrite delete_team_run.
  destruct (teams db !! t) as [T|] eqn:HT.
  - destruct (players_of db t) as [|[i p] l] eqn:Hl; cbn.
    + pose proof (proj1 (players_of_nil_iff db t) Hl) as Hno.
      repeat split; try done; eauto; try (by intros [? ?]).
      intros (_ & i & p & Hp & Ht). by destruct (Hno i p).
    + assert (Hin : (i, p) ∈ players_of db t) by (rewrite Hl; left).
      apply elem_of_players_of in Hin as [Hp Ht].
      repeat split; try done; eauto; try (by intros [? ?]).
      intros (_ & Hno). by destruct (Hno i p).
  - unfold not_found. destruct (int64 t) eqn:Hr; cbn.
    + repeat split; try done; try (by intros [? ?]);
        by intros ([? ?] & _).
    + repeat split; try done; try (by intros [? ?]);
        by intros ([? ?] & _).
Qed.

(** X6. A team whose only player is drafted again onto another
    existing team, at a price and a team id in the signed 64-bit range,
    can then be deleted: the draft succeeds, the deletion after it
    succeeds, and the team is gone. *)
Theorem delete_team_after_redraft (db : Store) (t t' pid price : Z)
    (label : string) :
  is_Some (players db !! pid) →
  is_Some (teams db !! t) →
  is_Some (teams db !! t') →
  t' ≠ t →
  int64 price = true →
  int64 t' = true →
  (∀ i p, players db !! i = Some p → fantasy_team_id p = Some t → i = pid) →
  ∃ r1 db1 r2,
    run_request (draft_player pid price label (Some t')) db = (Ok r1, db1) ∧
    run_request (delete_team t) db1
      = (Ok r2, mkStore (players db1) (delete t (teams db))) ∧
    teams (mkStore (players db1) (delete t (teams db))) !! t = None.
Proof.
  intros [p Hp] [T HT] [T' HT'] Hne Hprice Ht' Honly.
  eexists _, _, _. split.
  { rewrite draft_player_run, Hp. cbn [missing_team]. rewrite HT'.
    rewrite draft_in_range; [reflexivity|done|by intros ? [= <-]]. }
  rewrite delete_team_run. cbn. rewrite HT.
  assert (Hnil : players_of
            (mkStore (<[pid := drafted_as price label (Some t') p]> (players db))
                     (teams db)) t = []).
  { apply players_of_nil_iff. cbn. intros i q Hq Hteam.
    destruct (decide (pid = i)) as [<-|Hi].
    - rewrite lookup_insert_eq in Hq. injection Hq as <-. cbn in Hteam.
      congruence.
    - rewrite lookup_insert_ne in Hq by done. apply Hi. symmetry.
      by eapply Honly. }
  rewrite Hnil. split; [reflexivity|]. cbn. apply lookup_delete_eq.
Qed.

Lemma initialized_twelve : initialized ∅ range_1_13 = twelve_teams.
Proof. vm_compute. reflexivity. Qed.

Lemma twelve_teams_lookup i T :
  twelve_teams !! i = Some T ↔
  (1 ≤ i ≤ 12)%Z ∧ T = mkTeam ("Team " +:+ pretty i) 200.
Proof.
  unfold twelve_teams. rewrite <- elem_of_list_to_map.
  2:{ rewrite <- list_fmap_compose. unfold range_1_13.
      rewrite <- list_fmap_compose.
      apply NoDup_fmap_2; [|apply NoDup_seq].
      intros a b. cbn. lia. }
  unfold range_1_13. rewrite <- list_fmap_compose.
  rewrite list_elem_of_fmap. split.
  - intros (n & [= -> ->] & Hn%elem_of_seq). split; [lia|done].
  - intros [Hi ->]. exists (Z.to_nat i). split.
    + cbn. by rewrite Z2Nat.id by lia.
    + apply elem_of_seq. lia.
Qed.

(** X7. Initializing the league succeeds exactly on a store without
    teams and then leaves, beside the untouched players, exactly
    twelve teams: ids 1 to 12, team [i] named "Team i", each with
    budget 200.  On a store with a team it raises the 400 and changes
    nothing. *)
Theorem initialize_teams_outcomes (db : Store) :
  let r := run_request initialize_teams db in
  (teams db = ∅ →
     is_ok r.1 = true ∧
     r.2 = mkStore (players db) twelve_teams) ∧
  (teams db ≠ ∅ →
     r = (Raise (HTTPException 400
                   "Teams already initialized. Clear teams first."), db)) ∧
  (∀ i T, twelve_teams !! i = Some T ↔
          (1 ≤ i ≤ 12)%Z ∧ T = mkTeam ("Team " +:+ pretty i) 200) ∧
  size twelve_teams = 12%nat.
Proof.
  cbn zeta. rewrite initialize_teams_run. split; [|split; [|split]].
  - intros He. rewrite He, map_to_list_empty. cbn [fst snd is_ok].
    by rewrite initialized_twelve.
  - intros Hne. destruct (map_to_list (teams db)) eqn:Hl; [|done].
    by apply map_to_list_empty_iff in Hl.
  - apply twelve_teams_lookup.
  - vm_compute. reflexivity.
Qed.

(** X8. From any store, clearing the teams and then initializing
    succeeds and gives the twelve default teams with every player kept
    and unassigned; initializing once more is refused and changes
    nothing. *)
Theorem league_reset (db : Store) :
  ∃ r1 r2,
    let db1 := mkStore (with_fantasy_team_id None <$> players db) ∅ in
    let db2 :=
      mkStore (with_fantasy_team_id None <$> players db) twelve_teams in
    run_request clear_teams db = (Ok r1, db1) ∧
    run_request initialize_teams db1 = (Ok r2, db2) ∧
    run_request initialize_teams db2
      = (Raise (HTTPException 400
                  "Teams already initialized. Clear teams first."), db2).
Proof.
  eexists _, _. cbn zeta. split; [apply clear_teams_run|]. split.
  - rewrite initialize_teams_run. cbn [teams players].
    rewrite map_to_list_empty. unfold initialize_response. cbn [teams players].
    by rewrite initialized_twelve.
  - rewrite initialize_teams_run. cbn [teams players].
    destruct (map_to_list twelve_teams) eqn:Hl; [|done].
    apply map_to_list_empty_iff in Hl.
    assert (H : twelve_teams !! 1 = Some (mkTeam "Team 1" 200))
      by (vm_compute; reflexivity).
    rewrite Hl in H. by rewrite lookup_empty in H.
Qed.


(** X10. Updating a team that does not exist changes nothing, whatever
    the body: it raises the 404 when the id is in the signed 64-bit
    range and [OverflowError] when it is not.  A budget-only update of
    an existing team to a budget in that range always succeeds,
    whatever the team has spent: the stored budget becomes the new
    value, the name stays, and the response reports the new budget
    minus the spent as remaining, which may be negative; to another
    budget outside the range it raises [OverflowError] and changes
    nothing.  An empty update succeeds and changes nothing. *)
Theorem update_team_budget (db : Store) (i : Z) :
  (teams db !! i = None → int64 i = true →
     ∀ td, run_request (update_team i td) db
           = (Raise (HTTPException 404 "Team not found"), db)) ∧
  (teams db !! i = None → int64 i = false →
     ∀ td, run_request (update_team i td) db = (Raise OverflowError, db)) ∧
  (∀ T b, teams db !! i = Some T → int64 b = true →
     ∃ d,
       run_request (update_team i (mkTeamUpdate None (Some b))) db
         = (Ok d, mkStore (players db)
                          (<[i := mkTeam (team_name T) b]> (teams db))) ∧
       item "name" d = Some (VStr (team_name T)) ∧
       item "budget" d = Some (VInt b) ∧
       item "spent" d = Some (VInt (spent_spec (players_of db i))) ∧
       item "remaining_budget" d
         = Some (VInt (b - spent_spec (players_of db i)))) ∧
  (∀ T b, teams db !! i = Some T → int64 b = false → b ≠ budget T →
     run_request (update_team i (mkTeamUpdate None (Some b))) db
     = (Raise OverflowError, db)) ∧
  (∀ T, teams db !! i = Some T →
     (run_request (update_team i (mkTeamUpdate None None)) db).2 = db ∧
     is_ok (run_request (update_team i (mkTeamUpdate None None)) db).1 = true).
Proof.
  split; [|split; [|split; [|split]]].
  - intros HT Hi td. unfold update_team. run_handler. by rewrite HT, Hi.
  - intros HT Hi td. unfold update_team. run_handler. by rewrite HT, Hi.
  - intros T b HT Hb. eexists. unfold update_team. run_handler. rewrite HT.
    cbn -[flush_params].
    change (with_budget b T) with (updated T (mkTeamUpdate None (Some b))).
    rewrite flush_updated_team by done.
    rewrite update_in_range by (by intros ? [= <-]). cbn.
    split; [reflexivity|].
    unfold Team_to_dict, load_Team, self_players. cbn.
    rewrite sum_draft_prices_spec. by repeat split.
  - intros T b HT Hb Hne. unfold update_team. run_handler. rewrite HT.
    cbn -[flush_params].
    change (with_budget b T) with (updated T (mkTeamUpdate None (Some b))).
    rewrite flush_updated_team by done.
    unfold Team_params, updated. cbn. rewrite decide_False by done.
    cbn. by rewrite Hb.
  - intros T HT. unfold update_team. run_handler. rewrite HT.
    cbn -[flush_params]. rewrite flush_same. cbn.
    split; [by destruct db|done].
Qed.

(** ** Accounting edge cases *)


Lemma spent_spec_Permutation ps qs : ps ≡ₚ qs → spent_spec ps = spent_spec qs.
Proof.
  unfold spent_spec.
  induction 1 as [|x l l' _ IH|x y l|l l' l'' _ IH1 _ IH2]; cbn.
  - done.
  - by rewrite IH.
  - lia.
  - congruence.
Qed.

(** X12. Spent and remaining budget do not depend on the order in
    which the players of a team are loaded. *)
Theorem spent_order_independent (i : Z) (T : Team) (ps qs : list (Z * Player))
    (b : bool) :
  ps ≡ₚ qs →
  get_spent (mkTeamObj i T (Some ps)) None
    = get_spent (mkTeamObj i T (Some qs)) None ∧
  get_remaining_budget (mkTeamObj i T (Some ps)) None
    = get_remaining_budget (mkTeamObj i T (Some qs)) None ∧
  item "spent" (Team_to_dict (mkTeamObj i T (Some ps)) b)
    = item "spent" (Team_to_dict (mkTeamObj i T (Some qs)) b) ∧
  item "remaining_budget" (Team_to_dict (mkTeamObj i T (Some ps)) b)
    = item "remaining_budget" (Team_to_dict (mkTeamObj i T (Some qs)) b).
Proof.
  intros Hp.
  destruct (Team_to_dict_spent (mkTeamObj i T (Some ps)) ps b eq_refl)
    as [-> ->].
  destruct (Team_to_dict_spent (mkTeamObj i T (Some qs)) qs b eq_refl)
    as [-> ->].
  unfold get_remaining_budget, get_spent. cbn.
  by rewrite !sum_draft_prices_spec, (spent_spec_Permutation ps qs Hp).
Qed.

(** ** How requests compose *)

(** X13. Each bulk clear is idempotent, and the two in either order
    leave the empty store. *)
Theorem bulk_clears_compose (db : Store) :
  (run_request clear_players (run_request clear_players db).2).2
    = (run_request clear_players db).2 ∧
  (run_request clear_teams (run_request clear_teams db).2).2
    = (run_request clear_teams db).2 ∧
  (run_request clear_players (run_request clear_teams db).2).2
    = mkStore ∅ ∅ ∧
  (run_request clear_teams (run_request clear_players db).2).2
    = mkStore ∅ ∅.
Proof.
  rewrite !clear_players_run, !clear_teams_run. cbn.
  rewrite fmap_empty. repeat split; try done.
  f_equal. rewrite <- map_fmap_compose. apply map_fmap_ext. by intros ? [] ?.
Qed.

Lemma drafted_as_idem price label tid p :
  drafted_as price label tid (drafted_as price label tid p)
  = drafted_as price label tid p.
Proof. by destruct tid, p. Qed.

(** X14. A draft is idempotent: sending the same draft a second time
    gives the same response and the same store as sending it once,
    whether it succeeds or raises. *)
Theorem draft_player_idempotent (db : Store) (pid price : Z) (label : string)
    (tid : option Z) :
  let r := run_request (draft_player pid price label tid) db in
  run_request (draft_player pid price label tid) r.2 = r.
Proof.
  cbn zeta. rewrite (draft_player_run db).
  destruct (players db !! pid) as [p|] eqn:Hp; cbn -[Player_params].
  - destruct (missing_team db tid) eqn:Hm; cbn -[Player_params].
    + by rewrite draft_player_run, Hp, Hm.
    + destruct (forallb _ _) eqn:Hr; cbn -[Player_params].
      * rewrite draft_player_run. cbn -[Player_params].
        rewrite lookup_insert_eq.
        assert (Hm' : missing_team
                  (mkStore (<[pid := drafted_as price label tid p]>
                              (players db))
                           (teams db)) tid = None) by done.
        rewrite Hm'.
        by rewrite drafted_as_idem, Player_params_same, insert_insert_eq.
      * by rewrite draft_player_run, Hp, Hm, Hr.
  - by rewrite draft_player_run, Hp.
Qed.

Lemma players_of_split (m : gmap Z Player) (ts : gmap Z Team) i p t :
  m !! i = None →
  spent_spec (players_of (mkStore (<[i := p]> m) ts) t)
  = share t p + spent_spec (players_of (mkStore m ts) t).
Proof.
  intros Hi. unfold players_of. cbn [players].
  rewrite (spent_spec_Permutation _
             (filter (λ q : Z * Player, fantasy_team_id q.2 = Some t)
                     ((i, p) :: map_to_list m))).
  2:{ apply filter_Permutation. by apply map_to_list_insert. }
  rewrite filter_cons. unfold share. cbn [snd].
  destruct (decide (fantasy_team_id p = Some t)); [done|]. cbn. lia.
Qed.

(** Rewriting one player's row moves that player's share of each
    team's spent. *)
Lemma spent_after_insert db i p p' t :
  players db !! i = Some p →
  spent_spec (players_of (mkStore (<[i := p']> (players db)) (teams db)) t)
  = spent_spec (players_of db t) - share t p + share t p'.
Proof.
  intros Hp.
  replace (<[i := p']> (players db)) with (<[i := p']> (delete i (players db)))
    by apply insert_delete_eq.
  rewrite players_of_split; [|apply lookup_delete_eq].
  assert (Hold : spent_spec (players_of db t)
                 = share t p
                   + spent_spec (players_of
                       (mkStore (delete i (players db)) (teams db)) t)).
  { rewrite <- (players_of_split (delete i (players db)) (teams db) i p t)
      by apply lookup_delete_eq.
    rewrite insert_delete_id by done. by destruct db. }
  lia.
Qed.

(** X15. After a successful draft, each team's spent is its spent
    before, less the old price of the drafted player if the player was
    on that team, plus the new price if the player is on it now; the
    team read back reports that spent and its budget minus it.  No
    budget is checked: the remaining budget may go negative. *)
Theorem draft_player_spent (db : Store) (pid price : Z) (label : string)
    (tid : option Z) (p : Player) (r : value) (db' : Store) (t : Z) (T : Team) :
  players db !! pid = Some p →
  run_request (draft_player pid price label tid) db = (Ok r, db') →
  teams db !! t = Some T →
  let new_team :=
    match tid with Some t' => Some t' | None => fantasy_team_id p end in
  spent_spec (players_of db' t)
  = spent_spec (players_of db t)
    - (if decide (fantasy_team_id p = Some t)
       then default 0 (draft_price p) else 0)
    + (if decide (new_team = Some t) then price else 0) ∧
  ∃ d, run_request (get_team t) db' = (Ok d, db') ∧
       item "spent" d = Some (VInt (spent_spec (players_of db' t))) ∧
       item "remaining_budget" d
         = Some (VInt (budget T - spent_spec (players_of db' t))).
Proof.
  intros Hp Hrun HT. cbn zeta.
  rewrite draft_player_run, Hp in Hrun.
  destruct (missing_team db tid); [done|].
  destruct (forallb _ _); [|done]. injection Hrun as _ <-.
  split.
  - by rewrite (spent_after_insert db pid p).
  - eexists. rewrite get_team_run. cbn [teams]. rewrite HT.
    split; [reflexivity|].
    by apply (Team_to_dict_spent (load_Team _ (t, T)) _ true).
Qed.

(** X16. A successful draft onto team [t] puts the player on the
    player list of [t] and of no other team, and leaves every other
    player on the lists it was on. *)
Theorem draft_moves_player (db : Store) (pid price t : Z) (label : string)
    (r : value) (db' : Store) :
  run_request (draft_player pid price label (Some t)) db = (Ok r, db') →
  (∃ p', (pid, p') ∈ players_of db' t) ∧
  (∀ t' q, (pid, q) ∈ players_of db' t' → t' = t) ∧
  (∀ i q t', i ≠ pid →
     (i, q) ∈ players_of db' t' ↔ (i, q) ∈ players_of db t').
Proof.
  rewrite draft_player_run.
  destruct (players db !! pid) as [p|] eqn:Hp; [|done].
  destruct (missing_team db (Some t)); [done|].
  destruct (forallb _ _); [|done]. intros [= _ <-].
  split; [|split].
  - eexists. apply elem_of_players_of. cbn. by rewrite lookup_insert_eq.
  - intros t' q [Hq Ht]%elem_of_players_of. cbn in Hq.
    rewrite lookup_insert_eq in Hq. injection Hq as <-. cbn in Ht. congruence.
  - intros i q t' Hne. rewrite !elem_of_players_of. cbn.
    by rewrite lookup_insert_ne.
Qed.

(** X23. A draft of an existing player, with no team or an existing
    team, at a price outside the signed 64-bit range is refused at
    commit: it raises [OverflowError] and the store stays as it was,
    the stored price being in range. *)
Theorem draft_player_overflow (db : Store) (pid price : Z) (label : string)
    (tid : option Z) (p : Player) :
  players db !! pid = Some p →
  (∀ t, tid = Some t → is_Some (teams db !! t)) →
  (∀ z, draft_price p = Some z → int64 z = true) →
  int64 price = false →
  run_request (draft_player pid price label tid) db
  = (Raise OverflowError, db).
Proof.
  intros Hp Ht Hold Hprice. rewrite draft_player_run, Hp.
  rewrite (proj2 (missing_team_None db tid)) by done.
  unfold Player_params, bound. cbn [draft_price drafted_as].
  rewrite decide_False.
  - cbn. by rewrite Hprice.
  - intros Heq. apply Hold in Heq. congruence.
Qed.

(** ** What no request does to a player *)

Lemma Players_of_rows_new f rows ps p :
  Players_of_rows f rows = Ok ps → p ∈ ps →
  drafted p = false ∧ draft_price p = None ∧ drafted_by p = None ∧
  fantasy_team_id p = None.
Proof.
  revert ps. induction rows as [|row rows IH]; intros ps; cbn.
  - by intros [= <-] ?%not_elem_of_nil.
  - destruct (Player_of_row f row) as [q|] eqn:Hq; [|done].
    destruct (Players_of_rows f rows) as [qs|]; [|done].
    intros [= <-] [->|Hin]%elem_of_cons; [|exact (IH qs eq_refl Hin)].
    by apply Player_of_row_unassigned in Hq as (Ht & Hd & Hp & Hb).
Qed.

(** The requests that write no player. *)
Lemma team_requests_players db (req : request) f dec rd :
  match req with
  | POST_teams _ | POST_teams_initialize | PATCH_team _ _ | DELETE_team _
  | GET_root | GET_players | GET_teams | GET_team _ => True
  | _ => False
  end →
  players (run_request (handle f dec rd req) db).2 = players db.
Proof.
  destruct req as [ | | filename contents | pid price label tid | | | tid | td
                 | | tid td | tid | ]; cbn [handle]; try done; intros _.
  - rewrite get_team_run. by destruct (teams db !! tid).
  - by destruct (create_team_store db td) as [->| ->].
  - rewrite initialize_teams_run. by destruct (map_to_list (teams db)).
  - by destruct (update_team_store db tid td) as [->|(T & T' & HT & ->)].
  - rewrite delete_team_run. destruct (teams db !! tid); [|done].
    by destruct (players_of db tid).
Qed.

(** X17. Every request keeps the draft columns of every player in
    agreement: a drafted player has a price and a label, an undrafted
    one has no price, no label and no team.  Uploads create undrafted
    players, a draft sets flag, price and label together, and nothing
    else writes these columns except the bulk clear of teams, which
    only removes teams from players. *)
Theorem handle_draft_states (float_of_str : string → option float)
    (decode_utf8 : list Byte.byte → option string)
    (DictReader : string → Reader) (req : request) (db : Store) :
  draft_states_ok db →
  draft_states_ok
    (run_request (handle float_of_str decode_utf8 DictReader req) db).2.
Proof.
  intros Hok.
  destruct req as [ | | filename contents | pid price label tid | | | tid | td
                 | | tid td | tid | ] eqn:Hreq;
    try (intros i p; rewrite <- Hreq, team_requests_players by (by subst req);
         apply Hok);
    cbn [handle].
  - rewrite upload_players_run. destruct (negb _); [done|].
    destruct (decode_utf8 contents) as [csv_text|]; [|done].
    destruct (Players_of_rows float_of_str _) as [ps|e] eqn:Hps; [|done].
    destruct (ends_in_error _); [done|].
    intros i p Hi. cbn in Hi.
    apply added_lookup in Hi as [Hi|Hi]; [by eapply Hok|].
    destruct (Players_of_rows_new _ _ _ _ Hps Hi) as (Hd & ? & ? & ?).
    unfold draft_state_ok. by rewrite Hd.
  - rewrite draft_player_run.
    destruct (players db !! pid) as [p|] eqn:Hp; [|done].
    destruct (missing_team db tid); [done|].
    destruct (forallb _ _); [|done].
    intros i q Hi. cbn in Hi.
    destruct (decide (pid = i)) as [<-|Hne].
    + rewrite lookup_insert_eq in Hi. injection Hi as <-.
      unfold draft_state_ok. cbn. eauto.
    + rewrite lookup_insert_ne in Hi by done. by eapply Hok.
  - rewrite clear_players_run. intros i p Hi. cbn in Hi.
    by rewrite lookup_empty in Hi.
  - rewrite clear_teams_run. intros i p Hi. cbn in Hi.
    rewrite lookup_fmap in Hi.
    destruct (players db !! i) as [q|] eqn:Hq; [|done].
    injection Hi as <-. specialize (Hok i q Hq).
    unfold draft_state_ok in *. cbn. destruct (drafted q); [done|].
    by destruct Hok as (? & ? & ?).
Qed.

(** X18. No request rewrites who a player is, and no request undrafts:
    a player found under the same id before and after a request has
    the same name, position, NFL team and projected points, and if it
    was drafted before it is drafted after. *)
Theorem handle_player_frame (float_of_str : string → option float)
    (decode_utf8 : list Byte.byte → option string)
    (DictReader : string → Reader) (req : request) (db : Store) (i : Z)
    (p p' : Player) :
  players db !! i = Some p →
  players (run_request (handle float_of_str decode_utf8 DictReader req) db).2
    !! i = Some p' →
  same_person p p' ∧ (drafted p = true → drafted p' = true).
Proof.
  intros Hp.
  destruct req as [ | | filename contents | pid price label tid | | | tid | td
                 | | tid td | tid | ] eqn:Hreq;
    try (rewrite <- Hreq, team_requests_players by (by subst req);
         rewrite Hp; by intros [= <-]);
    cbn [handle].
  - rewrite upload_players_run. destruct (negb _).
    { cbn. rewrite Hp. by intros [= <-]. }
    destruct (decode_utf8 contents) as [csv_text|].
    2:{ cbn. rewrite Hp. by intros [= <-]. }
    destruct (Players_of_rows float_of_str _) as [ps|e].
    + destruct (ends_in_error _).
      { cbn. rewrite Hp. by intros [= <-]. }
      cbn. rewrite (added_keeps _ ps i p Hp). by intros [= <-].
    + cbn. rewrite Hp. by intros [= <-].
  - rewrite draft_player_run.
    destruct (players db !! pid) as [q|] eqn:Hq.
    2:{ cbn. rewrite Hp. by intros [= <-]. }
    destruct (missing_team db tid).
    { cbn. rewrite Hp. by intros [= <-]. }
    destruct (forallb _ _).
    2:{ cbn. rewrite Hp. by intros [= <-]. }
    cbn. destruct (decide (pid = i)) as [<-|Hne].
    + rewrite lookup_insert_eq. intros [= <-].
      by assert (q = p) as -> by congruence.
    + rewrite lookup_insert_ne by done. rewrite Hp. by intros [= <-].
  - rewrite clear_players_run. cbn. by rewrite lookup_empty.
  - rewrite clear_teams_run. cbn. rewrite lookup_fmap, Hp. cbn.
    by intros [= <-].
Qed.

(** ** Uploads *)

Lemma string_length_app (a b : string) :
  String.length (a +:+ b) = (String.length a + String.length b)%nat.
Proof.
  induction a as [|c a IH]; [done|].
  change (String c a +:+ b) with (String c (a +:+ b)). cbn. by rewrite IH.
Qed.

Lemma substring_all (s : string) : substring 0 (String.length s) s = s.
Proof. induction s as [|c s IH]; cbn; [done|]. f_equal. exact IH. Qed.

Lemma substring_app_r (a b : string) :
  substring (String.length a) (String.length b) (a +:+ b) = b.
Proof.
  induction a as [|c a IH]; [apply substring_all|].
  change (String c a +:+ b) with (String c (a +:+ b)). cbn. exact IH.
Qed.

Lemma substring_split (s : string) (i : nat) :
  (i ≤ String.length s)%nat →
  s = substring 0 i s +:+ substring i (String.length s - i) s.
Proof.
  revert i. induction s as [|c s IH]; intros i Hi; cbn in *.
  - by destruct i.
  - destruct i as [|i]; cbn.
    + by rewrite substring_all.
    + change (String c ?a +:+ ?b) with (String c (a +:+ b)).
      f_equal. apply IH. lia.
Qed.

(** [endswith] holds of the strings that are a prefix followed by the
    suffix. *)
Lemma endswith_spec (s suffix : string) :
  endswith s suffix = true ↔ ∃ prefix, s = prefix +:+ suffix.
Proof.
  unfold endswith. rewrite andb_true_iff, Nat.leb_le, String.eqb_eq. split.
  - intros [Hle Hsub].
    exists (substring 0 (String.length s - String.length suffix) s).
    pose proof (substring_split s (String.length s - String.length suffix))
      as H.
    replace (String.length s - (String.length s - String.length suffix))%nat
      with (String.length suffix) in H by lia.
    rewrite Hsub in H. apply H. lia.
  - intros [prefix ->]. rewrite string_length_app. split; [lia|].
    replace (String.length prefix + String.length suffix
             - String.length suffix)%nat with (String.length prefix) by lia.
    apply substring_app_r.
Qed.

Section Upload_facts.
Variable float_of_str : string → option float.
Variable decode_utf8 : list Byte.byte → option string.
Variable DictReader : string → Reader.

Lemma Players_of_rows_raise rows e :
  Players_of_rows float_of_str rows = Raise e →
  ∃ row, row ∈ rows ∧ Player_of_row float_of_str row = Raise e.
Proof.
  induction rows as [|row rows IH]; cbn; [done|].
  destruct (Player_of_row float_of_str row) as [q|e'] eqn:Hq.
  - destruct (Players_of_rows float_of_str rows) as [qs|e'']; [done|].
    intros [= ->]. destruct (IH eq_refl) as (r & Hin & Hr).
    exists r. split; [by right|done].
  - intros [= ->]. exists row. split; [left|done].
Qed.

Lemma Player_of_row_raise row e :
  Player_of_row float_of_str row = Raise e →
  (e = ValueError ∨ e = TypeError) ∧
  truthy (get row "projected_points" None)
    || truthy (get row "Projected Points" None) = true.
Proof.
  unfold Player_of_row, row_projected_points.
  destruct (truthy (get row "projected_points" None)
            || truthy (get row "Projected Points" None)); [|done].
  unfold float_.
  destruct (row !! "projected_points") as [[s|]|];
    [destruct (float_of_str s); [done|intros [= <-]; auto]
    |intros [= <-]; auto|].
  destruct (row !! "Projected Points") as [[s|]|];
    [destruct (float_of_str s); [done|intros [= <-]; auto]
    |intros [= <-]; auto|done].
Qed.

(** X19. An upload raises the 400 "Only CSV files are supported"
    exactly when the file name is not some prefix followed by [.csv]
    (compared character for character), and then the contents are not
    looked at and nothing is stored. *)
Theorem upload_players_filename (filename : string)
    (contents : list Byte.byte) (db : Store) :
  let r := run_request
             (upload_players float_of_str decode_utf8 DictReader
                filename contents) db in
  (r.1 = Raise (HTTPException 400 "Only CSV files are supported") ↔
     ¬ ∃ prefix, filename = prefix +:+ ".csv") ∧
  (r.1 = Raise (HTTPException 400 "Only CSV files are supported") →
     r.2 = db).
Proof.
  cbn zeta. rewrite upload_players_run.
  destruct (endswith filename ".csv") eqn:He; cbn.
  - apply endswith_spec in He.
    destruct (decode_utf8 contents) as [csv_text|]; cbn.
    2:{ split; [split; [done|by intros []]|done]. }
    destruct (Players_of_rows float_of_str _) as [ps|e] eqn:Hps; cbn.
    + destruct (ends_in_error _); cbn;
        (split; [split; [done|by intros []]|done]).
    + apply Players_of_rows_raise in Hps as (row & _ & Hrow).
      destruct (Player_of_row_raise row e Hrow) as [[-> | ->] _];
        (split; [split; [done|by intros []]|done]).
  - split; [|done]. split; [|done]. intros _ Hex.
    apply endswith_spec in Hex. congruence.
Qed.

(** X20. An upload of a [.csv] file that raises stores nothing, and
    what it raises is one of three: [UnicodeDecodeError], when the
    contents do not decode; the error of a row the reader yielded, a
    [ValueError] or a [TypeError] from [float], that row having a
    non-empty projected-points cell under one of the two names;
    [csv.Error], when the reader ends in one.  Contents that do not
    decode always raise; a file whose reader yields no row is uploaded
    with count 0 and changes nothing, unless the reader ends in an
    error. *)
Theorem upload_players_errors (filename : string) (contents : list Byte.byte)
    (db : Store) :
  endswith filename ".csv" = true →
  let r := run_request
             (upload_players float_of_str decode_utf8 DictReader
                filename contents) db in
  (∀ e, r.1 = Raise e →
     r.2 = db ∧
     ((e = UnicodeDecodeError ∧ decode_utf8 contents = None) ∨
      ∃ csv_text,
        decode_utf8 contents = Some csv_text ∧
        (((e = ValueError ∨ e = TypeError) ∧
          ∃ row, row ∈ yields (DictReader csv_text) ∧
                 Player_of_row float_of_str row = Raise e ∧
                 truthy (get row "projected_points" None)
                   || truthy (get row "Projected Points" None) = true) ∨
         (e = csv_Error ∧ ends_in_error (DictReader csv_text) = true)))) ∧
  (decode_utf8 contents = None → r = (Raise UnicodeDecodeError, db)) ∧
  (∀ csv_text,
     decode_utf8 contents = Some csv_text →
     yields (DictReader csv_text) = [] →
     r = if ends_in_error (DictReader csv_text)
         then (Raise csv_Error, db)
         else (Ok (VDict [("message",
                           VStr "Successfully uploaded 0 players")]), db)).
Proof.
  intros He. cbn zeta. rewrite upload_players_run, He. cbn [negb].
  split; [|split].
  - intros e. destruct (decode_utf8 contents) as [csv_text|] eqn:Hdec.
    2:{ cbn. intros [= <-]. split; [done|]. by left. }
    destruct (Players_of_rows float_of_str _) as [ps|e'] eqn:Hps.
    + destruct (ends_in_error _) eqn:Hend; [|done]. cbn. intros [= <-].
      split; [done|]. right. exists csv_text. split; [done|]. by right.
    + cbn. intros [= ->]. split; [done|]. right. exists csv_text.
      split; [done|]. left.
      apply Players_of_rows_raise in Hps as (row & Hin & Hrow).
      destruct (Player_of_row_raise row e Hrow) as [Hexn Ht].
      split; [done|]. by exists row.
  - by intros ->.
  - intros csv_text -> Hy. rewrite Hy. cbn.
    destruct (ends_in_error _); [done|]. by destruct db.
Qed.

(** X21. A successful upload is the upload of contents that decode and
    whose reader ends without an error; it answers with the number of
    rows, keeps every team and every player there was, and stores
    exactly one new player per row; each new player is undrafted, with
    no price, no label and no team. *)
Theorem upload_players_success (filename : string) (contents : list Byte.byte)
    (db : Store) (r : value) (db' : Store) :
  run_request
    (upload_players float_of_str decode_utf8 DictReader filename contents) db
  = (Ok r, db') →
  ∃ csv_text,
    decode_utf8 contents = Some csv_text ∧
    ends_in_error (DictReader csv_text) = false ∧
    let rows := yields (DictReader csv_text) in
    r = VDict [("message",
                VStr ("Successfully uploaded "
                      +:+ pretty (Z.of_nat (length rows)) +:+ " players"))] ∧
    teams db' = teams db ∧
    size (players db') = (size (players db) + length rows)%nat ∧
    (∀ i p, players db !! i = Some p → players db' !! i = Some p) ∧
    (∀ i p, players db !! i = None → players db' !! i = Some p →
       drafted p = false ∧ draft_price p = None ∧ drafted_by p = None ∧
       fantasy_team_id p = None).
Proof.
  rewrite upload_players_run. destruct (negb _); [done|].
  destruct (decode_utf8 contents) as [csv_text|]; [|done].
  destruct (Players_of_rows float_of_str _) as [ps|] eqn:Hps; [|done].
  destruct (ends_in_error _) eqn:Hend; [done|].
  intros [= <- <-]. exists csv_text. split; [done|]. split; [done|].
  cbn. rewrite (Players_of_rows_length _ _ ps Hps).
  split; [done|]. split; [done|]. split.
  { by rewrite added_size, (Players_of_rows_length _ _ ps Hps). }
  split; [intros i p; apply added_keeps|].
  intros i p Hnone [Hold|Hnew]%added_lookup; [congruence|].
  by eapply Players_of_rows_new.
Qed.

End Upload_facts.

(** ** Instances of the further properties *)

Lemma league_db_names_unique : names_unique league_db.
Proof.
  apply names_unique_NoDup. apply (bool_decide_unpack _). vm_compute. exact I.
Qed.

Lemma league_db_draft_states_ok : draft_states_ok league_db.
Proof.
  intros i p Hi. unfold league_db in Hi. cbn in Hi.
  apply lookup_singleton_Some in Hi as [_ <-].
  unfold draft_state_ok. cbn. eauto.
Qed.

Lemma handle_atomic_witness :
  (run_request (handle decimal_float utf8 plain_csv (DELETE_team 1))
               league_db).2 = league_db.
Proof.
  apply (handle_atomic decimal_float utf8 plain_csv (DELETE_team 1) league_db).
  vm_compute. reflexivity.
Defined.

Lemma get_players_lists_store_witness :
  ∃ l, run_request get_players league_db = (Ok (VList l), league_db) ∧
       Player_to_dict (7, kelce) ∈ l.
Proof.
  destruct (get_players_lists_store league_db) as (l & Hrun & _ & _ & H).
  exists l. split; [exact Hrun|]. apply H. vm_compute. reflexivity.
Defined.

Lemma get_team_outcomes_witness :
  run_request (get_team 9) league_db
  = (Raise (HTTPException 404 "Team not found"), league_db) ∧
  run_request (get_team (2 ^ 63)) league_db
  = (Raise OverflowError, league_db) ∧
  ∃ d, run_request (get_team 1) league_db = (Ok d, league_db) ∧
       item "players" d
         = Some (VList (Player_to_dict <$> players_of league_db 1)).
Proof.
  destruct (get_team_outcomes league_db 9) as [H404 _].
  destruct (get_team_outcomes league_db (2 ^ 63)) as (_ & Hover & _).
  destruct (get_team_outcomes league_db 1) as (_ & _ & H).
  split; [apply H404; reflexivity|].
  split; [apply Hover; reflexivity|].
  destruct (H (mkTeam "Team One" 200)) as (d & Hrun & _ & Hp & _).
  - vm_compute. reflexivity.
  - exists d. split; [exact Hrun|exact Hp].
Defined.

Lemma get_teams_lists_store_witness :
  ∃ l, run_request get_teams league_db = (Ok (VList l), league_db) ∧
       Team_to_dict (load_Team league_db (2, mkTeam "Team Two" 200)) true ∈ l.
Proof.
  destruct (get_teams_lists_store league_db) as (l & Hrun & _ & H & _).
  exists l. split; [exact Hrun|]. apply H. vm_compute. reflexivity.
Defined.

Lemma delete_team_outcomes_witness :
  (run_request (delete_team 2) league_db).2
    = mkStore (players league_db) (delete 2 (teams league_db)) ∧
  (run_request (delete_team (2 ^ 63)) league_db).1 = Raise OverflowError ∧
  (run_request (delete_team 1) league_db).1
    = Raise (HTTPException 400
        "Cannot delete team with drafted players. Undraft players first.").
Proof.
  pose proof (delete_team_outcomes league_db 2) as H2.
  pose proof (delete_team_outcomes league_db (2 ^ 63)) as Hbig.
  pose proof (delete_team_outcomes league_db 1) as H1.
  cbn zeta in H2, Hbig, H1.
  destruct H2 as (_ & _ & _ & _ & Hok & _).
  destruct Hbig as (_ & Hover & _).
  destruct H1 as (_ & _ & H400 & _).
  split; [apply Hok; vm_compute; reflexivity|].
  split; [apply Hover; split; reflexivity|].
  apply H400. split; [eexists; reflexivity|].
  exists 7, kelce. split; reflexivity.
Defined.

Lemma delete_team_after_redraft_witness :
  ∃ r1 db1 r2,
    run_request (draft_player 7 60 "Team Two" (Some 2)) league_db
      = (Ok r1, db1) ∧
    run_request (delete_team 1) db1
      = (Ok r2, mkStore (players db1) (delete 1 (teams league_db))) ∧
    teams (mkStore (players db1) (delete 1 (teams league_db))) !! 1 = None.
Proof.
  apply (delete_team_after_redraft league_db 1 2 7 60 "Team Two").
  - eexists. vm_compute. reflexivity.
  - eexists. vm_compute. reflexivity.
  - eexists. vm_compute. reflexivity.
  - lia.
  - reflexivity.
  - reflexivity.
  - intros i p Hi _. unfold league_db in Hi. cbn in Hi.
    by apply lookup_singleton_Some in Hi as [<- _].
Defined.

Lemma initialize_teams_outcomes_witness :
  (run_request initialize_teams (mkStore {[ 1 := mahomes ]} ∅)).2
  = mkStore {[ 1 := mahomes ]} twelve_teams.
Proof.
  destruct (initialize_teams_outcomes (mkStore {[ 1 := mahomes ]} ∅))
    as [H _].
  destruct (H eq_refl) as [_ Hstore]. exact Hstore.
Defined.


Lemma update_team_budget_witness :
  run_request (update_team 9 (mkTeamUpdate None (Some 10))) league_db
  = (Raise (HTTPException 404 "Team not found"), league_db) ∧
  run_request (update_team 1 (mkTeamUpdate None (Some (2 ^ 63)))) league_db
  = (Raise OverflowError, league_db) ∧
  ∃ d, run_request (update_team 1 (mkTeamUpdate None (Some 10))) league_db
         = (Ok d, mkStore (players league_db)
                          (<[1 := mkTeam "Team One" 10]> (teams league_db))) ∧
       item "remaining_budget" d = Some (VInt (-35)).
Proof.
  destruct (update_team_budget league_db 9) as (H404 & _).
  destruct (update_team_budget league_db 1) as (_ & _ & H & Hover & _).
  split; [apply H404; reflexivity|].
  split; [apply (Hover (mkTeam "Team One" 200)); [reflexivity..|done]|].
  destruct (H (mkTeam "Team One" 200) 10) as (d & Hrun & _ & _ & _ & Hr).
  - vm_compute. reflexivity.
  - reflexivity.
  - exists d. split; [exact Hrun|]. rewrite Hr. vm_compute. reflexivity.
Defined.

Lemma spent_order_independent_witness :
  get_spent (mkTeamObj 1 test_team (Some [(1, mahomes); (7, kelce)])) None
  = get_spent (mkTeamObj 1 test_team (Some [(7, kelce); (1, mahomes)])) None.
Proof.
  apply (spent_order_independent 1 test_team
           [(1, mahomes); (7, kelce)] [(7, kelce); (1, mahomes)] false).
  apply perm_swap.
Defined.

Lemma league_db_redraft :
  run_request (draft_player 7 60 "Team Two" (Some 2)) league_db
  = (Ok (Player_to_dict (7, drafted_as 60 "Team Two" (Some 2) kelce)),
     mkStore (<[7 := drafted_as 60 "Team Two" (Some 2) kelce]>
                (players league_db))
             (teams league_db)).
Proof. vm_compute. reflexivity. Qed.

Lemma draft_player_spent_witness :
  spent_spec
    (players_of
       (mkStore (<[7 := drafted_as 60 "Team Two" (Some 2) kelce]>
                   (players league_db)) (teams league_db)) 2)
  = spent_spec (players_of league_db 2) - 0 + 60 ∧
  spent_spec
    (players_of
       (mkStore (<[7 := drafted_as 60 "Team Two" (Some 2) kelce]>
                   (players league_db)) (teams league_db)) 1)
  = spent_spec (players_of league_db 1) - 45 + 0.
Proof.
  assert (H7 : players league_db !! 7 = Some kelce)
    by (vm_compute; reflexivity).
  assert (H1 : teams league_db !! 1 = Some (mkTeam "Team One" 200))
    by (vm_compute; reflexivity).
  assert (H2 : teams league_db !! 2 = Some (mkTeam "Team Two" 200))
    by (vm_compute; reflexivity).
  split.
  - destruct (draft_player_spent _ _ _ _ _ _ _ _ 2 _ H7 league_db_redraft H2)
      as [H _]. exact H.
  - destruct (draft_player_spent _ _ _ _ _ _ _ _ 1 _ H7 league_db_redraft H1)
      as [H _]. exact H.
Defined.

Lemma draft_moves_player_witness :
  ∃ p', (7, p') ∈ players_of
          (mkStore (<[7 := drafted_as 60 "Team Two" (Some 2) kelce]>
                      (players league_db)) (teams league_db)) 2.
Proof.
  destruct (draft_moves_player league_db 7 60 2 "Team Two" _ _
              league_db_redraft) as [H _]. exact H.
Defined.

Lemma handle_draft_states_witness :
  draft_states_ok
    (run_request (handle decimal_float utf8 plain_csv DELETE_teams)
                 league_db).2.
Proof.
  apply (handle_draft_states decimal_float utf8 plain_csv DELETE_teams
           league_db).
  exact league_db_draft_states_ok.
Defined.

Lemma handle_player_frame_witness :
  same_person kelce (with_fantasy_team_id None kelce) ∧
  (drafted kelce = true → drafted (with_fantasy_team_id None kelce) = true).
Proof.
  apply (handle_player_frame decimal_float utf8 plain_csv DELETE_teams
           league_db 7).
  - vm_compute. reflexivity.
  - vm_compute. reflexivity.
Defined.

Lemma handle_names_unique_witness :
  names_unique
    (run_request
       (handle decimal_float utf8 plain_csv
          (POST_teams (TeamCreate_of "Team Three" None)))
       league_db).2.
Proof.
  apply (handle_names_unique decimal_float utf8 plain_csv
           (POST_teams (TeamCreate_of "Team Three" None)) league_db).
  exact league_db_names_unique.
Defined.

Lemma upload_players_filename_witness :
  (run_request
     (upload_players decimal_float utf8 plain_csv "players.txt" burrow_csv)
     sample_db).2 = sample_db.
Proof.
  apply (upload_players_filename decimal_float utf8 plain_csv "players.txt"
           burrow_csv sample_db).
  vm_compute. reflexivity.
Defined.

Lemma upload_players_errors_witness :
  (run_request
     (upload_players decimal_float utf8 plain_csv "players.csv"
        both_columns_csv) sample_db).2 = sample_db ∧
  run_request
    (upload_players decimal_float utf8 plain_csv "players.csv" latin1_csv)
    sample_db
  = (Raise UnicodeDecodeError, sample_db) ∧
  run_request
    (upload_players decimal_float utf8 broken_csv "players.csv" burrow_csv)
    sample_db
  = (Raise csv_Error, sample_db) ∧
  run_request
    (upload_players decimal_float utf8 plain_csv "players.csv" []) sample_db
  = (Ok (VDict [("message", VStr "Successfully uploaded 0 players")]),
     sample_db).
Proof.
  pose proof (upload_players_errors decimal_float utf8 plain_csv
                "players.csv" both_columns_csv sample_db eq_refl) as Hrow.
  pose proof (upload_players_errors decimal_float utf8 plain_csv
                "players.csv" latin1_csv sample_db eq_refl) as Hdec.
  pose proof (upload_players_errors decimal_float utf8 broken_csv
                "players.csv" burrow_csv sample_db eq_refl) as Hcsv.
  pose proof (upload_players_errors decimal_float utf8 plain_csv
                "players.csv" [] sample_db eq_refl) as Hnone.
  cbn zeta in Hrow, Hdec, Hcsv, Hnone.
  destruct Hrow as [Hrow _]. destruct Hdec as (_ & Hdec & _).
  destruct Hcsv as (_ & _ & Hcsv). destruct Hnone as (_ & _ & Hnone).
  split; [|split; [|split]].
  - destruct (Hrow ValueError) as [Hsame _]; [vm_compute; reflexivity|].
    exact Hsame.
  - apply Hdec. vm_compute. reflexivity.
  - apply (Hcsv (string_of_list_byte burrow_csv)); vm_compute; reflexivity.
  - apply (Hnone ""); vm_compute; reflexivity.
Defined.

Lemma upload_players_success_witness :
  ∃ r db',
    run_request
      (upload_players decimal_float utf8 plain_csv "players.csv" burrow_csv)
      sample_db = (Ok r, db') ∧
    size (players db') = 2%nat ∧
    players db' !! 1 = Some mahomes.
Proof.
  assert (Hrun :
    run_request
      (upload_players decimal_float utf8 plain_csv "players.csv" burrow_csv)
      sample_db
    = (Ok (VDict [("message", VStr "Successfully uploaded 1 players")]),
       mkStore (<[2 := burrow]> (players sample_db)) (teams sample_db)))
    by (vm_compute; reflexivity).
  destruct (upload_players_success decimal_float utf8 plain_csv _ _ _ _ _ Hrun)
    as (csv_text & Hdec & _ & _ & _ & Hsize & Hkeep & _).
  assert (csv_text = string_of_list_byte burrow_csv) as ->
    by (vm_compute in Hdec; by injection Hdec as <-).
  eexists _, _. split; [exact Hrun|]. split; [exact Hsize|].
  apply Hkeep. vm_compute. reflexivity.
Defined.

Lemma draft_player_overflow_witness :
  run_request (draft_player 7 (- 2 ^ 63 - 1) "Team Two" (Some 2)) league_db
  = (Raise OverflowError, league_db).
Proof.
  apply (draft_player_overflow league_db 7 (- 2 ^ 63 - 1) "Team Two" (Some 2)
           kelce).
  - reflexivity.
  - intros t [= <-]. eexists. reflexivity.
  - intros z [= <-]. reflexivity.
  - reflexivity.
Defined.
